(** * NetworkGraph: the data layer of [src/components/network_digitaltwin.js]

    A shallow embedding of the component's pure parts (degree counting, the
    category classifier, the threshold filter) and of its imperative parts
    (the simulation tick handler and the three drag handlers), followed by
    the properties proved about them. *)

From Stdlib Require Import ZArith Lia Bool.
From Stdlib Require Import Floats.SpecFloat.
From stdpp Require Import gmap strings list.

Local Open Scope string_scope.

(** ** JavaScript numbers

    A JS number is an IEEE-754 binary64 value.  The Standard Library's
    [spec_float] is the executable specification of such values (one NaN,
    two zeros, two infinities, sign/mantissa/exponent otherwise); its
    operations are instantiated at [prec = 53], [emax = 1024]. *)
Module Js.

Abbreviation number := spec_float.

Definition prec : Z := 53.
Definition emax : Z := 1024.

(** Integer literal, e.g. [5], [800]. *)
Definition of_Z (z : Z) : number := binary_normalize prec emax z 0 false.
Definition of_nat (n : nat) : number := of_Z (Z.of_nat n).

Definition NaN : number := S754_nan.

Definition add : number -> number -> number := SFadd prec emax.
Definition sub : number -> number -> number := SFsub prec emax.
Definition mul : number -> number -> number := SFmul prec emax.
Definition div : number -> number -> number := SFdiv prec emax.
Definition sqrt : number -> number := SFsqrt prec emax.

(** [a < b], [a <= b], [a > b], [a >= b]: false as soon as a NaN is involved. *)
Definition lt (a b : number) : bool := SFltb a b.
Definition le (a b : number) : bool := SFleb a b.
Definition gt (a b : number) : bool := SFltb b a.
Definition ge (a b : number) : bool := SFleb b a.

Definition is_neg_zero (a : number) : bool :=
  match a with S754_zero true => true | _ => false end.

(** [Math.max(a, b)]: NaN if either is NaN; [+0] is larger than [-0]. *)
Definition Math_max (a b : number) : number :=
  match SFcompare a b with
  | None => NaN
  | Some Lt => b
  | Some Gt => a
  | Some Eq => if is_neg_zero a then b else a
  end.

(** [Math.min(a, b)]: NaN if either is NaN; [-0] is smaller than [+0]. *)
Definition Math_min (a b : number) : number :=
  match SFcompare a b with
  | None => NaN
  | Some Lt => a
  | Some Gt => b
  | Some Eq => if is_neg_zero a then a else b
  end.

(** ** String methods used by the category tests

    Ids are strings of characters.  Every pattern the tests look for is made
    of ASCII letters and digits, and the length is only consulted together
    with a pattern that admits nothing but ASCII capitals and digits. *)

(** [s.startsWith(p)] *)
Fixpoint startsWith (s p : string) : bool :=
  match p, s with
  | EmptyString, _ => true
  | String _ _, EmptyString => false
  | String c p', String d s' => Ascii.eqb c d && startsWith s' p'
  end.

(** [s.includes(p)] *)
Fixpoint includes (s p : string) : bool :=
  startsWith s p ||
  match s with
  | EmptyString => false
  | String _ s' => includes s' p
  end.

(** [s.endsWith(p)] *)
Fixpoint endsWith (s p : string) : bool :=
  String.eqb s p ||
  match s with
  | EmptyString => false
  | String _ s' => endsWith s' p
  end.

(** [s.length] *)
Definition length (s : string) : nat := String.length s.

(** Character classes [[A-Z]] and [\d]. *)
Definition is_upper (c : Ascii.ascii) : bool :=
  let n := Ascii.nat_of_ascii c in (65 <=? n)%nat && (n <=? 90)%nat.
Definition is_digit (c : Ascii.ascii) : bool :=
  let n := Ascii.nat_of_ascii c in (48 <=? n)%nat && (n <=? 57)%nat.

(** [/^\d*$/.test(s)] *)
Fixpoint re_digits (s : string) : bool :=
  match s with
  | EmptyString => true
  | String c s' => is_digit c && re_digits s'
  end.

(** [/^[A-Z]*\d*$/.test(s)] *)
Fixpoint re_uppers_digits (s : string) : bool :=
  match s with
  | EmptyString => true
  | String c s' => (is_upper c && re_uppers_digits s') || (is_digit c && re_digits s')
  end.

(** [/^[A-Z]+\d*$/.test(s)]: one or more capitals, then digits only, up to
    the end of the string. *)
Definition re_upper_then_digits (s : string) : bool :=
  match s with
  | EmptyString => false
  | String c s' => is_upper c && re_uppers_digits s'
  end.

(** [arr.includes(x)] on an array of strings. *)
Definition array_includes (arr : list string) (x : string) : bool :=
  existsb (String.eqb x) arr.

End Js.

(** ** Data model *)

(** What a degree slot can hold.  [nodeDegrees] is a plain object literal, so
    besides the counts the code stores in it, a lookup can hit a member
    inherited from [Object.prototype]; [Inherited] stands for such a value and
    for the strings obtained by adding [1] to one.  All of them are truthy and
    none is a number. *)
Inductive DegreeValue :=
  | Count (n : nat)
  | Inherited.

(** A node object with the fields the parser, the degree pass, the simulation
    and the drag handlers give it. *)
Record Node := mkNode {
  id : string;
  label : string;
  degree : DegreeValue;
  x : Js.number;
  y : Js.number;
  vx : Js.number;
  vy : Js.number;
  fx : option Js.number;   (* [None] is null/undefined *)
  fy : option Js.number
}.

(** An edge as the parser builds it: [source] and [target] are node ids. *)
Record Edge := mkEdge {
  source : string;
  target : string;
  edge_id : Z;
  weight : Js.number
}.

(** ** Category classifier (lines 16-25 and 129-135) *)

Record CategoryInfo := mkCategory {
  color : string;
  test : string -> bool
}.

Definition nodeCategories : list (string * CategoryInfo) :=
  [ ("Signaling", mkCategory "#FF5733" (fun id =>
       Js.includes id "MAPK" || Js.includes id "PIK3" || Js.includes id "AKT"
       || Js.includes id "SRC" || Js.includes id "JAK" || Js.includes id "STAT"
       || Js.includes id "RAF" || Js.includes id "RAS"));
    ("Transcription Factors", mkCategory "#33A1FF" (fun id =>
       (4 <=? Js.length id)%nat && Js.re_upper_then_digits id
       && negb (Js.startsWith id "RPL") && negb (Js.startsWith id "RPS")
       && negb (Js.startsWith id "MT")));
    ("Receptors", mkCategory "#33FF57" (fun id =>
       Js.includes id "EGFR" || Js.endsWith id "R" || Js.includes id "CD"
       || Js.includes id "HLA" || Js.includes id "TLR"));
    ("Immune", mkCategory "#B533FF" (fun id =>
       Js.startsWith id "IL" || Js.startsWith id "IFN" || Js.startsWith id "TNF"
       || Js.startsWith id "CD" || Js.startsWith id "HLA" || Js.includes id "TLR"));
    ("Cancer", mkCategory "#FF33A1" (fun id =>
       Js.array_includes
         ["EGFR"; "PTEN"; "TP53"; "MYC"; "CTNNB1"; "KRAS"; "BRAF"; "CDKN2A";
          "PIK3CA"; "ATM"; "MDM2"] id));
    ("Ribosomal", mkCategory "#33FFF9" (fun id =>
       Js.startsWith id "RPL" || Js.startsWith id "RPS"));
    ("Cell Cycle", mkCategory "#FFBD33" (fun id =>
       Js.includes id "CDK" || Js.includes id "CCND" || Js.includes id "CDC"
       || Js.includes id "CDKN"));
    ("Other", mkCategory "#AAAAAA" (fun _ => true)) ].

(** The [for ... of Object.entries(nodeCategories)] loop: entries are visited
    in declaration order, the entry named "Other" is skipped, the first entry
    whose test accepts the id is returned, and "Other" is the fall-through. *)
Fixpoint firstCategory (entries : list (string * CategoryInfo)) (node_id : string)
  : string :=
  match entries with
  | [] => "Other"
  | (category, info) :: rest =>
      if String.eqb category "Other" then firstCategory rest node_id
      else if test info node_id then category
      else firstCategory rest node_id
  end.

Definition getNodeCategory (node : Node) : string :=
  firstCategory nodeCategories (id node).

(** [nodeCategories[category].test(id)], false for a name that is not a key. *)
Definition categoryTest (category node_id : string) : bool :=
  match List.find (fun entry => String.eqb (fst entry) category) nodeCategories with
  | Some entry => test (snd entry) node_id
  | None => false
  end.

(** The seven categories the loop can return before falling through. *)
Definition priorityOrder : list string :=
  ["Signaling"; "Transcription Factors"; "Receptors"; "Immune"; "Cancer";
   "Ribosomal"; "Cell Cycle"].

(** ** Degree calculator (lines 57-71) *)

(** Record updates: [node.degree = d], [node.x = v], ... *)
Definition set_degree (d : DegreeValue) (n : Node) : Node :=
  mkNode (id n) (label n) d (x n) (y n) (vx n) (vy n) (fx n) (fy n).

(** The keys every object literal inherits from [Object.prototype]. *)
Definition prototypeKeys : list string :=
  ["constructor"; "hasOwnProperty"; "isPrototypeOf"; "propertyIsEnumerable";
   "toLocaleString"; "toString"; "valueOf"; "__defineGetter__";
   "__defineSetter__"; "__lookupGetter__"; "__lookupSetter__"; "__proto__"].

(** [nodeDegrees[k]]: the own property when there is one, otherwise the
    inherited member, otherwise [undefined] ([None]).  The map holds the own
    properties of the object. *)
Definition obj_get (o : gmap string DegreeValue) (k : string) : option DegreeValue :=
  match o !! k with
  | Some v => Some v
  | None => if bool_decide (k ∈ prototypeKeys) then Some Inherited else None
  end.

(** [nodeDegrees[k] = v] for a primitive [v] (a number or a string): creates
    or overwrites the own property, except for the key ["__proto__"], whose
    inherited setter ignores every value that is not an object. *)
Definition obj_set (o : gmap string DegreeValue) (k : string) (v : DegreeValue)
  : gmap string DegreeValue :=
  if String.eqb k "__proto__" then o else <[k := v]> o.

(** [v || 0]: [undefined] and [0] give [0], truthy values are kept. *)
Definition or_zero (v : option DegreeValue) : DegreeValue :=
  match v with
  | Some (Count n) => Count n
  | Some Inherited => Inherited
  | None => Count 0
  end.

(** [v + 1]: a number is incremented; anything else is concatenated with
    the string "1" and stays a non-number. *)
Definition plus_one (v : DegreeValue) : DegreeValue :=
  match v with
  | Count n => Count (S n)
  | Inherited => Inherited
  end.

(** [nodes.forEach(node => { nodeDegrees[node.id] = 0; })] *)
Definition initDegrees (nodes : list Node) : gmap string DegreeValue :=
  fold_left (fun o node => obj_set o (id node) (Count 0)) nodes ∅.

(** The body of [edges.forEach]: one increment for the source, then one for
    the target, each reading the object as the previous write left it. *)
Definition countEdge (o : gmap string DegreeValue) (edge : Edge)
  : gmap string DegreeValue :=
  let o1 := obj_set o (source edge) (plus_one (or_zero (obj_get o (source edge)))) in
  obj_set o1 (target edge) (plus_one (or_zero (obj_get o1 (target edge)))).

Definition nodeDegrees (nodes : list Node) (edges : list Edge)
  : gmap string DegreeValue :=
  fold_left countEdge edges (initDegrees nodes).

(** [nodes.forEach(node => { node.degree = nodeDegrees[node.id] || 0; })] *)
Definition computeDegrees (nodes : list Node) (edges : list Edge) : list Node :=
  let o := nodeDegrees nodes edges in
  map (fun node => set_degree (or_zero (obj_get o (id node))) node) nodes.

(** Number of edges having [k] as source, and as target. *)
Definition asSource (k : string) (edges : list Edge) : nat :=
  List.length (List.filter (fun e => String.eqb (source e) k) edges).
Definition asTarget (k : string) (edges : list Edge) : nat :=
  List.length (List.filter (fun e => String.eqb (target e) k) edges).

(** ** Filter engine (lines 89-97) *)

(** [node.degree > nodeDegreeThreshold], the threshold being the integer the
    slider handler stores with [parseInt].  A degree that is not a number
    converts to NaN and compares false. *)
Definition degree_gt (d : DegreeValue) (threshold : Z) : bool :=
  match d with
  | Count n => (threshold <? Z.of_nat n)%Z
  | Inherited => false
  end.

Definition filteredNodes (nodes : list Node) (nodeDegreeThreshold : Z) : list Node :=
  List.filter (fun node => degree_gt (degree node) nodeDegreeThreshold) nodes.

(** [new Set(filteredNodes.map(node => node.id))] *)
Definition filteredNodeIds (visible : list Node) : gset string :=
  list_to_set (map id visible).

(** What the [source] or [target] field of an edge object of [data.edges]
    holds: the id string the parser stored, or, once the link force of a
    rendering run has initialised the edge, a node object.  A node object is
    one of the objects of [data.nodes] and is named by its position there. *)
Inductive Endpoint :=
  | EndpointId (node_id : string)
  | EndpointNode (position : nat).

Record EdgeObject := mkEdgeObject {
  obj_source : Endpoint;
  obj_target : Endpoint;
  obj_id : Z;
  obj_weight : Js.number
}.

(** The edge object as the parser pushed it. *)
Definition fresh (edge : Edge) : EdgeObject :=
  mkEdgeObject (EndpointId (source edge)) (EndpointId (target edge))
    (edge_id edge) (weight edge).

(** [filteredNodeIds.has(v)]: the set holds strings only, so a node object
    is never a member. *)
Definition setHas (ids : gset string) (v : Endpoint) : bool :=
  match v with
  | EndpointId k => bool_decide (k ∈ ids)
  | EndpointNode _ => false
  end.

(** The callback of [data.edges.filter] (lines 93-97). *)
Definition passesFilter (weightThreshold : Js.number) (ids : gset string)
    (edge : EdgeObject) : bool :=
  Js.ge (obj_weight edge) weightThreshold
  && setHas ids (obj_source edge)
  && setHas ids (obj_target edge).

Definition filteredEdges (edges : list EdgeObject) (weightThreshold : Js.number)
    (ids : gset string) : list EdgeObject :=
  List.filter (passesFilter weightThreshold ids) edges.

(** Both filters on a graph as loaded, that is on edge objects that still
    hold the parser's id strings ([fresh]); the result is given by the parsed
    edges the selected objects were built from. *)
Definition filterGraph (nodes : list Node) (edges : list Edge)
    (weightThreshold : Js.number) (nodeDegreeThreshold : Z)
  : list Node * list Edge :=
  let visible := filteredNodes nodes nodeDegreeThreshold in
  (visible,
   List.filter (fun edge =>
       passesFilter weightThreshold (filteredNodeIds visible) (fresh edge)) edges).

(** *** The rendering effect and the link force (lines 85-97, 143-147)

    [d3.forceLink(filteredEdges).id(d => d.id)] is library code.  When the
    force is registered it replaces, in every edge object it was given, a
    [source] or [target] that is not an object by the node of that id among
    the simulation's nodes, and throws if there is none.  The tick listener
    relies on it when it reads [d.source.x] (lines 198-201).  The edge objects
    it was given are those of [data.edges] that passed the filter: the array
    returned by [filter] holds the same objects. *)

(** [new Map(nodes.map(d => [d.id, d])).get(k)] over the visible nodes: the
    last visible node of that id, as its position in [data.nodes] counted
    from [i]. *)
Fixpoint nodeById (nodes : list Node) (nodeDegreeThreshold : Z) (k : string)
    (i : nat) : option nat :=
  match nodes with
  | [] => None
  | n :: rest =>
      match nodeById rest nodeDegreeThreshold k (S i) with
      | Some j => Some j
      | None =>
          if degree_gt (degree n) nodeDegreeThreshold && String.eqb (id n) k
          then Some i else None
      end
  end.

(** [if (typeof link.source !== "object") link.source = find(nodeById, link.source)];
    [None] is the error thrown for an id without node. *)
Definition resolveEndpoint (find : string -> option nat) (v : Endpoint)
  : option Endpoint :=
  match v with
  | EndpointNode _ => Some v
  | EndpointId k =>
      match find k with
      | Some i => Some (EndpointNode i)
      | None => None
      end
  end.

Definition initializeLink (find : string -> option nat) (edge : EdgeObject)
  : option EdgeObject :=
  match resolveEndpoint find (obj_source edge) with
  | None => None
  | Some s =>
      match resolveEndpoint find (obj_target edge) with
      | None => None
      | Some t => Some (mkEdgeObject s t (obj_id edge) (obj_weight edge))
      end
  end.

(** [data.edges] after the link force has initialised the edges that passed
    the filter; the others are untouched. *)
Fixpoint initializeLinks (passes : EdgeObject -> bool) (find : string -> option nat)
    (edges : list EdgeObject) : option (list EdgeObject) :=
  match edges with
  | [] => Some []
  | edge :: rest =>
      match (if passes edge then initializeLink find edge else Some edge) with
      | None => None
      | Some edge' =>
          match initializeLinks passes find rest with
          | None => None
          | Some rest' => Some (edge' :: rest')
          end
      end
  end.

(** One run of the rendering effect, as far as the graph data goes: the
    visible nodes, the edges that passed the filter, and [data.edges] as the
    run leaves it.  [None] stands for an exception of the link force. *)
Definition renderEffect (nodes : list Node) (edges : list EdgeObject)
    (weightThreshold : Js.number) (nodeDegreeThreshold : Z)
  : option (list Node * list EdgeObject * list EdgeObject) :=
  let visible := filteredNodes nodes nodeDegreeThreshold in
  let ids := filteredNodeIds visible in
  match initializeLinks (passesFilter weightThreshold ids)
          (fun k => nodeById nodes nodeDegreeThreshold k 0) edges with
  | None => None
  | Some edges' => Some (visible, filteredEdges edges weightThreshold ids, edges')
  end.

(** The initial values of the two thresholds (lines 10-11). *)
Definition initialWeightThreshold : Js.number := Js.div (Js.of_Z 8) (Js.of_Z 10000).
Definition initialDegreeThreshold : Z := 0.


(** *** The filter as the specification words it *)

(** "n.degree > thresholds.degreeThreshold" *)
Definition degreeAbove (threshold : Z) (n : Node) : Prop :=
  match degree n with
  | Count k => (threshold < Z.of_nat k)%Z
  | Inherited => False
  end.

#[global] Instance degreeAbove_dec threshold n : Decision (degreeAbove threshold n).
Proof. unfold degreeAbove. destruct (degree n); apply _. Defined.

(** "e.weight >= thresholds.weightThreshold AND e.sourceId in visibleIds AND
    e.targetId in visibleIds", the visible ids being the ids of the visible
    nodes. *)
Definition edgeVisible (weightThreshold : Js.number) (visible : list Node)
    (e : Edge) : Prop :=
  Js.ge (weight e) weightThreshold = true
  ∧ Exists (fun n => id n = source e) visible
  ∧ Exists (fun n => id n = target e) visible.

#[global] Instance edgeVisible_dec w visible e : Decision (edgeVisible w visible e).
Proof. unfold edgeVisible. apply _. Defined.

Definition spec_visibleNodes (nodes : list Node) (degreeThreshold : Z) : list Node :=
  filter (degreeAbove degreeThreshold) nodes.

Definition spec_visibleEdges (nodes : list Node) (edges : list Edge)
    (weightThreshold : Js.number) (degreeThreshold : Z) : list Edge :=
  filter (edgeVisible weightThreshold (spec_visibleNodes nodes degreeThreshold)) edges.



(** ** Simulation step and tick handler (lines 143-150, 196-223) *)

Definition width : Js.number := Js.of_Z 800.
Definition height : Js.number := Js.of_Z 600.

Definition set_position (x' y' : Js.number) (n : Node) : Node :=
  mkNode (id n) (label n) (degree n) x' y' (vx n) (vy n) (fx n) (fy n).

Definition set_motion (x' y' vx' vy' : Js.number) (n : Node) : Node :=
  mkNode (id n) (label n) (degree n) x' y' vx' vy' (fx n) (fy n).

Definition set_pin (fx' fy' : option Js.number) (n : Node) : Node :=
  mkNode (id n) (label n) (degree n) (x n) (y n) (vx n) (vy n) fx' fy'.

(** [ToNumber(d.degree)] *)
Definition degree_number (d : DegreeValue) : Js.number :=
  match d with
  | Count n => Js.of_nat n
  | Inherited => Js.NaN
  end.

(** The circle's [r] attribute: [Math.sqrt(d.degree) * 2 + 3]. *)
Definition radius (d : Node) : Js.number :=
  Js.add (Js.mul (Js.sqrt (degree_number (degree d))) (Js.of_Z 2)) (Js.of_Z 3).

(** State of the [d3.forceSimulation] object the handlers close over. *)
Record Simulation := mkSimulation {
  sim_nodes : list Node;
  alpha : Js.number;
  alphaTarget : Js.number;
  running : bool
}.

(** The forces configured on the simulation are library code; they are kept
    abstract.  [force a nodes n] is the position and velocity [(x, y, vx, vy)]
    of [n] once every force has acted at energy [a] on the node list. *)
Record Forces := mkForces {
  alphaDecay : Js.number;
  velocityDecay : Js.number;
  force : Js.number -> list Node -> Node ->
          Js.number * Js.number * Js.number * Js.number
}.

Definition applyForces (F : Forces) (a : Js.number) (nodes : list Node) (n : Node)
  : Node :=
  let '(x', y', vx', vy') := force F a nodes n in set_motion x' y' vx' vy' n.

(** Modelled from the spec: the position update of the library's simulation
    step (d3-force, not part of this repository's sources).  "Update velocity
    (with damping), update position += velocity; for pinned nodes ([fx/fy]
    non-null) force integration for position is skipped - position is forced
    to the pin". *)
Definition integrate (F : Forces) (n : Node) : Node :=
  let '(x', vx') :=
    match fx n with
    | None => let v := Js.mul (vx n) (velocityDecay F) in (Js.add (x n) v, v)
    | Some pin => (pin, Js.of_Z 0)
    end in
  let '(y', vy') :=
    match fy n with
    | None => let v := Js.mul (vy n) (velocityDecay F) in (Js.add (y n) v, v)
    | Some pin => (pin, Js.of_Z 0)
    end in
  set_motion x' y' vx' vy' n.

(** Modelled from the spec: one step of the library's simulation.  "[alpha]
    decays geometrically toward [alphaTarget] each step"; forces are evaluated
    once per step, then every node is integrated. *)
Definition d3_tick (F : Forces) (sim : Simulation) : Simulation :=
  let a := Js.add (alpha sim)
             (Js.mul (Js.sub (alphaTarget sim) (alpha sim)) (alphaDecay F)) in
  let nodes := sim_nodes sim in
  mkSimulation (map (fun n => integrate F (applyForces F a nodes n)) nodes)
               a (alphaTarget sim) (running sim).

(** The ["tick"] listener, on one datum:
    [d.x = Math.max(5, Math.min(width - 5, d.x))] and the same for [d.y] with
    [height].  The assignment writes the node; its value is the attribute. *)
Definition clampX (v : Js.number) : Js.number :=
  Js.Math_max (Js.of_Z 5) (Js.Math_min (Js.sub width (Js.of_Z 5)) v).
Definition clampY (v : Js.number) : Js.number :=
  Js.Math_max (Js.of_Z 5) (Js.Math_min (Js.sub height (Js.of_Z 5)) v).

Definition ticked (nodes : list Node) : list Node :=
  map (fun d => set_position (clampX (x d)) (clampY (y d)) d) nodes.

(** The [cx], [cy] attributes the circles carry after the listener ran. *)
Definition rendered (nodes : list Node) : list (Js.number * Js.number) :=
  map (fun d => (x d, y d)) nodes.

(** One simulation step as the component sees it: the library advances the
    simulation, then dispatches ["tick"] to the listener. *)
Definition simulationStep (F : Forces) (sim : Simulation) : Simulation :=
  let sim' := d3_tick F sim in
  mkSimulation (ticked (sim_nodes sim')) (alpha sim') (alphaTarget sim') (running sim').

(** What one such step does to a single node of the array. *)
Definition stepNode (F : Forces) (sim : Simulation) (n : Node) : Node :=
  let a := Js.add (alpha sim)
             (Js.mul (Js.sub (alphaTarget sim) (alpha sim)) (alphaDecay F)) in
  let n' := integrate F (applyForces F a (sim_nodes sim) n) in
  set_position (clampX (x n')) (clampY (y n')) n'.

(** ** Drag handlers (lines 225-240) *)

(** A drag event: [active] is the number of other drag gestures in progress,
    [subject] the position of the dragged node in the simulation's node
    array, [ev_x], [ev_y] the pointer coordinates. *)
Record DragEvent := mkDragEvent {
  active : nat;
  subject : nat;
  ev_x : Js.number;
  ev_y : Js.number
}.

(** [simulation.alphaTarget(v)] and [simulation.restart()] *)
Definition set_alphaTarget (v : Js.number) (sim : Simulation) : Simulation :=
  mkSimulation (sim_nodes sim) (alpha sim) v (running sim).
Definition restart (sim : Simulation) : Simulation :=
  mkSimulation (sim_nodes sim) (alpha sim) (alphaTarget sim) true.

(** Writing fields of [event.subject], which is one of the simulation's nodes. *)
Definition update_subject (f : Node -> Node) (event : DragEvent) (sim : Simulation)
  : Simulation :=
  mkSimulation (alter f (subject event) (sim_nodes sim))
               (alpha sim) (alphaTarget sim) (running sim).

(** The literal [0.3]. *)
Definition restingAlphaTarget : Js.number := Js.div (Js.of_Z 3) (Js.of_Z 10).

Definition dragstarted (event : DragEvent) (sim : Simulation) : Simulation :=
  let sim1 :=
    if Nat.eqb (active event) 0 then restart (set_alphaTarget restingAlphaTarget sim)
    else sim in
  update_subject (fun d => set_pin (Some (x d)) (Some (y d)) d) event sim1.

Definition dragged (event : DragEvent) (sim : Simulation) : Simulation :=
  update_subject (set_pin (Some (ev_x event)) (Some (ev_y event))) event sim.

Definition dragended (event : DragEvent) (sim : Simulation) : Simulation :=
  let sim1 :=
    if Nat.eqb (active event) 0 then set_alphaTarget (Js.of_Z 0) sim else sim in
  update_subject (set_pin None None) event sim1.

(** ** Sample data used by the examples below *)

Definition plainNode (name : string) (d : DegreeValue) (x0 y0 : Js.number) : Node :=
  mkNode name name d x0 y0 (Js.of_Z 0) (Js.of_Z 0) None None.

(** Forces that leave every node where it is. *)
Definition noForces : Forces :=
  mkForces (Js.of_Z 0) (Js.of_Z 1) (fun _ _ n => (x n, y n, vx n, vy n)).

(** A simulation over one node, running at full energy. *)
Definition oneNodeSimulation (d : Node) : Simulation :=
  mkSimulation [d] (Js.of_Z 1) (Js.of_Z 0) true.


(** A node of degree 4 that the forces left at x = 0. *)
Definition hubAtLeftBorder : Node :=
  plainNode "A" (Count 4) (Js.of_Z 0) (Js.of_Z 300).

(** A graph whose first node has the id ["__proto__"], with one edge leaving
    that node and one self-loop on it. *)
Definition protoNodes : list Node :=
  [plainNode "__proto__" (Count 0) (Js.of_Z 0) (Js.of_Z 0);
   plainNode "A" (Count 0) (Js.of_Z 0) (Js.of_Z 0)].
Definition protoEdges : list Edge :=
  [mkEdge "__proto__" "A" 0 (Js.of_Z 1);
   mkEdge "__proto__" "__proto__" 1 (Js.of_Z 1)].

(** Two nodes of degree 1 and 2 with their two edges, of weight 1 and 3. *)
Definition twoNodes : list Node :=
  [plainNode "A" (Count 1) (Js.of_Z 0) (Js.of_Z 0);
   plainNode "B" (Count 2) (Js.of_Z 0) (Js.of_Z 0)].
Definition twoEdges : list Edge :=
  [mkEdge "A" "B" 0 (Js.of_Z 1); mkEdge "B" "B" 1 (Js.of_Z 3)].


(** The first drag gesture, on the node at position 0, pointer at (50, 50). *)
Definition firstDrag : DragEvent := mkDragEvent 0 0 (Js.of_Z 50) (Js.of_Z 50).

(** ** Graph parser (lines 33-55) *)

(** The double quote character, written Q in the comments of this part. *)
Definition dquote : string := String (Ascii.ascii_of_nat 34) EmptyString.

Definition notQuote (c : Ascii.ascii) : bool :=
  negb (Ascii.eqb c (Ascii.ascii_of_nat 34)).

(** A literal piece of a pattern: the input must start with it; the result
    is what follows. *)
Fixpoint matchLiteral (lit s : string) : option string :=
  match lit with
  | EmptyString => Some s
  | String c lit' =>
      match s with
      | EmptyString => None
      | String d s' => if Ascii.eqb c d then matchLiteral lit' s' else None
      end
  end.

(** The longest prefix made of characters of a class, and what follows. *)
Fixpoint takeClass (p : Ascii.ascii -> bool) (s : string) : string * string :=
  match s with
  | EmptyString => (EmptyString, EmptyString)
  | String c s' =>
      if p c then let '(a, r) := takeClass p s' in (String c a, r)
      else (EmptyString, s)
  end.

(** A group [(C+)] that the pattern continues with a character outside the
    class [C] (here always the double quote): the only run that can be
    followed by that character is the longest one, and it must not be
    empty. *)
Definition matchGroup (p : Ascii.ascii -> bool) (s : string)
  : option (string * string) :=
  let '(a, r) := takeClass p s in
  match a with
  | EmptyString => None
  | String _ _ => Some (a, r)
  end.

(** The pattern [<node id=Q([^Q]+)Q label=Q([^Q]+)Q />] tried at the start
    of [s]: the two captures and the text after the match. *)
Definition nodeRegex (s : string) : option ((string * string) * string) :=
  match matchLiteral ("<node id=" ++ dquote) s with
  | None => None
  | Some r0 =>
  match matchGroup notQuote r0 with
  | None => None
  | Some (g1, r1) =>
  match matchLiteral (dquote ++ " label=" ++ dquote) r1 with
  | None => None
  | Some r2 =>
  match matchGroup notQuote r2 with
  | None => None
  | Some (g2, r3) =>
  match matchLiteral (dquote ++ " />") r3 with
  | None => None
  | Some r4 => Some ((g1, g2), r4)
  end end end end end.

(** The pattern
    [<edge source=Q([^Q]+)Q target=Q([^Q]+)Q id=Q(\d+)Q weight=Q([^Q]+)Q />]
    tried at the start of [s]. *)
Definition edgeRegex (s : string)
  : option ((string * string * string * string) * string) :=
  match matchLiteral ("<edge source=" ++ dquote) s with
  | None => None
  | Some r0 =>
  match matchGroup notQuote r0 with
  | None => None
  | Some (g1, r1) =>
  match matchLiteral (dquote ++ " target=" ++ dquote) r1 with
  | None => None
  | Some r2 =>
  match matchGroup notQuote r2 with
  | None => None
  | Some (g2, r3) =>
  match matchLiteral (dquote ++ " id=" ++ dquote) r3 with
  | None => None
  | Some r4 =>
  match matchGroup Js.is_digit r4 with
  | None => None
  | Some (g3, r5) =>
  match matchLiteral (dquote ++ " weight=" ++ dquote) r5 with
  | None => None
  | Some r6 =>
  match matchGroup notQuote r6 with
  | None => None
  | Some (g4, r7) =>
  match matchLiteral (dquote ++ " />") r7 with
  | None => None
  | Some r8 => Some ((g1, g2, g3, g4), r8)
  end end end end end end end end end.

(** [while ((m = re.exec(text)) !== null) out.push(m)] for a global pattern:
    the leftmost match at or after the current position is taken and the
    search resumes right after it; a position where the pattern does not match
    is skipped.  Every turn consumes a character, so the length of the text
    plus one bounds the number of turns. *)
Fixpoint execLoop {A} (re : string -> option (A * string)) (fuel : nat) (s : string)
  : list A :=
  match fuel with
  | O => []
  | S fuel' =>
      match re s with
      | Some (m, rest) => m :: execLoop re fuel' rest
      | None =>
          match s with
          | EmptyString => []
          | String _ s' => execLoop re fuel' s'
          end
      end
  end.

Definition execAll {A} (re : string -> option (A * string)) (text : string) : list A :=
  execLoop re (S (String.length text)) text.

(** The object literal pushed for a node match.  Its degree is written by
    the degree pass before anything reads it; it has no position yet. *)
Definition parsedNode (m : string * string) : Node :=
  mkNode (fst m) (snd m) (Count 0) Js.NaN Js.NaN Js.NaN Js.NaN None None.

Definition extractNodes (response : string) : list Node :=
  map parsedNode (execAll nodeRegex response).

(** The object literal pushed for an edge match.  [parseInt] and
    [parseFloat] are the two built-in conversions, kept abstract. *)
Definition parsedEdge (parseInt : string -> Z) (parseFloat : string -> Js.number)
    (m : string * string * string * string) : Edge :=
  let '(g1, g2, g3, g4) := m in mkEdge g1 g2 (parseInt g3) (parseFloat g4).

Definition extractEdges (parseInt : string -> Z) (parseFloat : string -> Js.number)
    (response : string) : list Edge :=
  map (parsedEdge parseInt parseFloat) (execAll edgeRegex response).

(** The value handed to [setData]: the nodes with their degrees, the edges. *)
Definition loadGraph (parseInt : string -> Z) (parseFloat : string -> Js.number)
    (response : string) : list Node * list Edge :=
  let nodes := extractNodes response in
  let edges := extractEdges parseInt parseFloat response in
  (computeDegrees nodes edges, edges).

(** A node declaration and an edge declaration as the patterns expect them. *)
Definition nodeDeclaration (node_id node_label : string) : string :=
  "<node id=" ++ dquote ++ node_id ++ dquote ++ " label=" ++ dquote
    ++ node_label ++ dquote ++ " />".

Definition edgeDeclaration (edge_source edge_target edge_number edge_weight : string)
  : string :=
  "<edge source=" ++ dquote ++ edge_source ++ dquote ++ " target=" ++ dquote
    ++ edge_target ++ dquote ++ " id=" ++ dquote ++ edge_number ++ dquote
    ++ " weight=" ++ dquote ++ edge_weight ++ dquote ++ " />".

Fixpoint allChars (p : Ascii.ascii -> bool) (s : string) : bool :=
  match s with
  | EmptyString => true
  | String c s' => p c && allChars p s'
  end.

(** Text in which no declaration can start (it has no opening angle
    bracket), and attribute values the patterns can capture (not empty, no
    double quote). *)
Definition noTagStart (s : string) : bool :=
  allChars (fun c => negb (Ascii.eqb c (Ascii.ascii_of_nat 60))) s.
Definition attributeValue (s : string) : bool :=
  negb (String.eqb s EmptyString) && allChars notQuote s.







(** ** Colours, highlight and legend (lines 137-140, 167-172, 251-258) *)

(** [nodeCategories[category].color] for a declared key; [None] stands for
    the failed lookup of a name that is not declared. *)
Definition categoryColor (category : string) : option string :=
  match List.find (fun entry => String.eqb (fst entry) category) nodeCategories with
  | Some entry => Some (color (snd entry))
  | None => None
  end.

Definition getNodeColor (node : Node) : option string :=
  categoryColor (getNodeCategory node).

(** The circle's [fill] attribute. *)
Definition nodeFill (highlightedCategory : string) (d : Node) : option string :=
  let category := getNodeCategory d in
  if String.eqb highlightedCategory "all" || String.eqb highlightedCategory category
  then categoryColor category
  else Some "#dddddd".

(** The legend row's click handler: the new [highlightedCategory]. *)
Definition legendClick (highlightedCategory category : string) : string :=
  if String.eqb highlightedCategory category then "all" else category.

(** ** Labels (lines 185-188) *)

(** The data of the text elements: under [if (showLabels)],
    [filteredNodes.filter(d => d.degree > 15 || (selectedNode && d.id === selectedNode.id))];
    without [showLabels] no text element is created. *)
Definition labelledNodes (showLabels : bool) (visible : list Node)
    (selectedNode : option Node) : list Node :=
  if showLabels then
    List.filter (fun d =>
        degree_gt (degree d) 15
        || match selectedNode with
           | Some s => String.eqb (id d) (id s)
           | None => false
           end) visible
  else [].

(** ** Link width (line 159) *)

(** [Math.max(1, d.weight * 5000 - 3)] *)
Definition strokeWidth (d : Edge) : Js.number :=
  Js.Math_max (Js.of_Z 1) (Js.sub (Js.mul (weight d) (Js.of_Z 5000)) (Js.of_Z 3)).

(** ** Counts shown above the graph (lines 286-288) *)

Definition filteredNodeCount (data : option (list Node * list EdgeObject))
    (nodeDegreeThreshold : Z) : nat :=
  match data with
  | Some (nodes, _) =>
      List.length
        (List.filter (fun node => degree_gt (degree node) nodeDegreeThreshold) nodes)
  | None => 0
  end.

Definition filteredEdgeCount (data : option (list Node * list EdgeObject))
    (weightThreshold : Js.number) : nat :=
  match data with
  | Some (_, edges) =>
      List.length
        (List.filter (fun edge => Js.ge (obj_weight edge) weightThreshold) edges)
  | None => 0
  end.

(** ** More sample data *)



(** Two nodes joined by three edges of weight 0.001, 0.00075 and 0.0009, as
    the load phase leaves them. *)
Definition threeEdges : list Edge :=
  [mkEdge "A" "B" 0 (Js.div (Js.of_Z 1) (Js.of_Z 1000));
   mkEdge "A" "B" 1 (Js.div (Js.of_Z 75) (Js.of_Z 100000));
   mkEdge "A" "B" 2 (Js.div (Js.of_Z 9) (Js.of_Z 10000))].
Definition loadedNodes : list Node :=
  computeDegrees [parsedNode ("A", "A"); parsedNode ("B", "B")] threeEdges.

(** [data.edges] after the first run of the effect, under the initial
    thresholds, on that graph. *)
Definition edgesAfterFirstRun : list EdgeObject :=
  match renderEffect loadedNodes (map fresh threeEdges)
          initialWeightThreshold initialDegreeThreshold with
  | Some (_, _, edges') => edges'
  | None => []
  end.


(** * Properties *)

(** ** Comparison of JS numbers *)

Section Comparison.

Local Ltac cmp_cases :=
  repeat match goal with
  | |- context [Z.compare ?a ?b] => destruct (Z.compare_spec a b)
  | |- context [Pos.compare ?a ?b] => destruct (Pos.compare_spec a b)
  | H : context [Z.compare ?a ?b] |- _ => destruct (Z.compare_spec a b)
  | H : context [Pos.compare ?a ?b] |- _ => destruct (Pos.compare_spec a b)
  end.

Lemma SFcompare_antisym (a b : Js.number) :
  SFcompare b a = CompOpp <$> SFcompare a b.
Proof.
  destruct a as [[]|[]| |[] ma ea], b as [[]|[]| |[] mb eb]; simpl; try reflexivity;
    change (Pos.compare_cont Eq) with Pos.compare;
    rewrite (Z.compare_antisym ea eb), (Pos.compare_antisym ma mb);
    destruct (ea ?= eb)%Z, (ma ?= mb)%positive; reflexivity.
Qed.

Lemma SFleb_trans (a b c : Js.number) :
  SFleb a b = true → SFleb b c = true → SFleb a c = true.
Proof.
  unfold SFleb.
  destruct a as [[]|[]| |[] ma ea], b as [[]|[]| |[] mb eb], c as [[]|[]| |[] mc ec];
    simpl; try done;
    change (Pos.compare_cont Eq) with Pos.compare;
    intros H1 H2; cmp_cases; simpl in *; try done; try lia.
Qed.

Lemma SFleb_refl (a : Js.number) : a ≠ Js.NaN → SFleb a a = true.
Proof.
  unfold SFleb.
  destruct a as [[]|[]| |[] ma ea]; simpl; try done;
    change (Pos.compare_cont Eq) with Pos.compare;
    rewrite Z.compare_refl, Pos.compare_refl; done.
Qed.

(** Numbers that compare equal are the same value, the two zeros apart. *)
Lemma SFcompare_Eq (a b : Js.number) :
  SFcompare a b = Some Eq →
  a = b ∨ (∃ s t, a = S754_zero s ∧ b = S754_zero t).
Proof.
  destruct a as [[]|[]| |[] ma ea], b as [[]|[]| |[] mb eb]; simpl; try done;
    try (right; eauto; fail); try (left; reflexivity);
    change (Pos.compare_cont Eq) with Pos.compare;
    intros H; cmp_cases; simpl in *; try done; subst; left; reflexivity.
Qed.

End Comparison.

(** ** The clamp [Math.max(lo, Math.min(hi, v))] *)

Section Clamp.

Variables lo hi : Js.number.
Hypothesis lo_number : lo ≠ Js.NaN.
Hypothesis hi_number : hi ≠ Js.NaN.
Hypothesis lo_nonzero : ∀ s, lo ≠ S754_zero s.
Hypothesis hi_nonzero : ∀ s, hi ≠ S754_zero s.
Hypothesis lo_le_hi : SFleb lo hi = true.

Local Lemma not_neg_zero (a : Js.number) :
  (∀ s, a ≠ S754_zero s) → Js.is_neg_zero a = false.
Proof. destruct a as [[]| | |]; naive_solver. Qed.

Lemma clamp_NaN : Js.Math_max lo (Js.Math_min hi Js.NaN) = Js.NaN.
Proof.
  unfold Js.Math_max, Js.Math_min.
  replace (SFcompare hi Js.NaN) with (@None comparison) by (by destruct hi).
  by destruct lo.
Qed.

Lemma clamp_is_number (v : Js.number) :
  Js.Math_max lo (Js.Math_min hi v) ≠ Js.NaN → v ≠ Js.NaN.
Proof. intros H ->. by rewrite clamp_NaN in H. Qed.

Lemma clamp_range (v : Js.number) :
  Js.Math_max lo (Js.Math_min hi v) ≠ Js.NaN →
  SFleb lo (Js.Math_max lo (Js.Math_min hi v)) = true
  ∧ SFleb (Js.Math_max lo (Js.Math_min hi v)) hi = true.
Proof.
  pose proof (SFleb_refl lo lo_number) as Rlo.
  pose proof (SFleb_refl hi hi_number) as Rhi.
  pose proof (SFcompare_antisym hi v) as Avh.
  pose proof lo_le_hi as Hlh.
  unfold Js.Math_max, Js.Math_min.
  rewrite (not_neg_zero lo lo_nonzero), (not_neg_zero hi hi_nonzero).
  destruct (SFcompare hi v) as [[]|] eqn:E1; simpl in Avh.
  - destruct (SFcompare lo v) as [[]|] eqn:E2; intros Hn; try done;
      unfold SFleb; rewrite ?E2, ?Avh; done.
  - unfold SFleb in Hlh |- *.
    destruct (SFcompare lo hi) as [[]|] eqn:E2; intros Hn; try done;
      unfold SFleb in *; rewrite ?E2; done.
  - destruct (SFcompare lo v) as [[]|] eqn:E2; intros Hn; try done;
      unfold SFleb; rewrite ?E2, ?Avh; done.
  - replace (SFcompare lo Js.NaN) with (@None comparison) by (by destruct lo).
    done.
Qed.

Lemma clamp_inside (v : Js.number) :
  SFleb lo v = true → SFleb v hi = true → Js.Math_max lo (Js.Math_min hi v) = v.
Proof.
  intros Hlv Hvh.
  pose proof (SFcompare_antisym v hi) as Avh.
  unfold Js.Math_max, Js.Math_min, SFleb in *.
  rewrite (not_neg_zero lo lo_nonzero), (not_neg_zero hi hi_nonzero).
  destruct (SFcompare v hi) as [[]|] eqn:E1; simpl in Avh; rewrite Avh; try done;
    destruct (SFcompare lo v) as [[]|] eqn:E2; try done;
    destruct (SFcompare_Eq _ _ E2) as [?|(s & t & ? & ?)]; try done;
    by destruct (lo_nonzero s).
Qed.

End Clamp.

(** ** Category classifier *)

(** The loop over the declared entries, written out. *)
Lemma getNodeCategory_cascade (n : Node) :
  getNodeCategory n =
    if categoryTest "Signaling" (id n) then "Signaling"
    else if categoryTest "Transcription Factors" (id n) then "Transcription Factors"
    else if categoryTest "Receptors" (id n) then "Receptors"
    else if categoryTest "Immune" (id n) then "Immune"
    else if categoryTest "Cancer" (id n) then "Cancer"
    else if categoryTest "Ribosomal" (id n) then "Ribosomal"
    else if categoryTest "Cell Cycle" (id n) then "Cell Cycle"
    else "Other".
Proof. reflexivity. Qed.

Local Ltac tests_cases n :=
  destruct (categoryTest "Signaling" (id n)),
           (categoryTest "Transcription Factors" (id n)),
           (categoryTest "Receptors" (id n)),
           (categoryTest "Immune" (id n)),
           (categoryTest "Cancer" (id n)),
           (categoryTest "Ribosomal" (id n)),
           (categoryTest "Cell Cycle" (id n)).

(** C3: classification is total and deterministic; it returns the first
    category of the fixed order Signaling, Transcription Factors, Receptors,
    Immune, Cancer, Ribosomal, Cell Cycle whose test accepts the id, and
    "Other" exactly when none of the seven accepts it. *)
Theorem classification_first_match (n : Node) :
  In (getNodeCategory n) (map fst nodeCategories)
  ∧ (∀ m, id m = id n → getNodeCategory m = getNodeCategory n)
  ∧ (∀ (pre : list string) c post, priorityOrder = (pre ++ c :: post)%list →
       (getNodeCategory n = c ↔
        categoryTest c (id n) = true
        ∧ Forall (fun c' => categoryTest c' (id n) = false) pre))
  ∧ (getNodeCategory n = "Other" ↔
     Forall (fun c => categoryTest c (id n) = false) priorityOrder).
Proof.
  split; [|split; [|split]].
  - rewrite getNodeCategory_cascade. tests_cases n; simpl; tauto.
  - intros m Hm. unfold getNodeCategory. by rewrite Hm.
  - intros pre c post H. rewrite getNodeCategory_cascade.
    unfold priorityOrder in H.
    repeat match goal with
    | E : [] = (?p ++ _ :: _)%list |- _ => destruct p; discriminate E
    | E : _ :: _ = (?p ++ _ :: _)%list |- _ =>
        destruct p; simpl in E; simplify_eq
    end;
      rewrite ?Forall_cons, ?Forall_nil;
      tests_cases n; intuition congruence.
  - rewrite getNodeCategory_cascade. unfold priorityOrder.
    rewrite !Forall_cons, Forall_nil.
    tests_cases n; intuition congruence.
Qed.

(** C4 (as stated): "EGFR" does not classify as Cancer. *)
Lemma EGFR_is_not_Cancer :
  getNodeCategory (plainNode "EGFR" (Count 1) (Js.of_Z 0) (Js.of_Z 0)) ≠ "Cancer".
Proof. vm_compute. discriminate. Qed.

(** C4 (amended): "EGFR" classifies as Transcription Factors: that test comes
    before Cancer in the declared order and accepts a four-letter id in
    capitals. *)
Theorem EGFR_is_Transcription_Factors (n : Node) :
  id n = "EGFR" → getNodeCategory n = "Transcription Factors".
Proof. intros H. unfold getNodeCategory. rewrite H. reflexivity. Qed.

Lemma EGFR_is_Transcription_Factors_witness :
  getNodeCategory (plainNode "EGFR" (Count 1) (Js.of_Z 0) (Js.of_Z 0))
  = "Transcription Factors".
Proof. apply EGFR_is_Transcription_Factors. reflexivity. Defined.

(** The genes of the Cancer list that an earlier test takes. *)
Lemma cancerList_cases (s : string) :
  categoryTest "Cancer" s = true →
  s ∈ ["EGFR"; "PTEN"; "TP53"; "MYC"; "CTNNB1"; "KRAS"; "BRAF"; "CDKN2A";
       "PIK3CA"; "ATM"; "MDM2"].
Proof.
  intros H.
  change (existsb (String.eqb s)
            ["EGFR"; "PTEN"; "TP53"; "MYC"; "CTNNB1"; "KRAS"; "BRAF"; "CDKN2A";
             "PIK3CA"; "ATM"; "MDM2"] = true) in H.
  apply existsb_exists in H as (g & Hin & Heq).
  apply String.eqb_eq in Heq. subst g. by apply list_elem_of_In.
Qed.

(** C10: classification returns Cancer exactly for the ids "MYC" and "ATM";
    each of the other nine genes of the Cancer list is taken by Signaling,
    Transcription Factors or Receptors, which are tested earlier. *)
Theorem Cancer_iff_MYC_or_ATM (n : Node) :
  (getNodeCategory n = "Cancer" ↔ id n = "MYC" ∨ id n = "ATM")
  ∧ (id n ∈ ["EGFR"; "PTEN"; "TP53"; "CTNNB1"; "KRAS"; "BRAF"; "CDKN2A";
             "PIK3CA"; "MDM2"] →
     getNodeCategory n ∈ ["Signaling"; "Transcription Factors"; "Receptors"]).
Proof.
  split; [split|].
  - intros H.
    assert (Hc : categoryTest "Cancer" (id n) = true).
    { rewrite getNodeCategory_cascade in H. tests_cases n; congruence. }
    apply cancerList_cases in Hc. unfold getNodeCategory in H.
    set_unfold in Hc.
    destruct Hc as [E|[E|[E|[E|[E|[E|[E|[E|[E|[E|[E|[]]]]]]]]]]]];
      rewrite E in H; vm_compute in H; try discriminate H; auto.
  - unfold getNodeCategory. intros [E|E]; rewrite E; reflexivity.
  - unfold getNodeCategory. intros H. set_unfold in H.
    destruct H as [E|[E|[E|[E|[E|[E|[E|[E|[E|[]]]]]]]]]]; rewrite E; vm_compute;
      set_solver.
Qed.

Lemma Cancer_iff_MYC_or_ATM_witness :
  getNodeCategory (plainNode "MYC" (Count 1) (Js.of_Z 0) (Js.of_Z 0)) = "Cancer"
  ∧ getNodeCategory (plainNode "KRAS" (Count 1) (Js.of_Z 0) (Js.of_Z 0))
    ∈ ["Signaling"; "Transcription Factors"; "Receptors"].
Proof.
  split.
  - apply (Cancer_iff_MYC_or_ATM (plainNode "MYC" (Count 1) (Js.of_Z 0) (Js.of_Z 0))).
    left. reflexivity.
  - apply (Cancer_iff_MYC_or_ATM (plainNode "KRAS" (Count 1) (Js.of_Z 0) (Js.of_Z 0))).
    simpl. set_solver.
Defined.

(** ** Degree calculator *)

Section Degrees.

Implicit Types (o : gmap string DegreeValue) (k : string) (v : DegreeValue).

Lemma obj_set_lookup_ne o k k' v : k ≠ k' → obj_set o k' v !! k = o !! k.
Proof.
  intros Hne. unfold obj_set.
  destruct (String.eqb k' "__proto__"); [done|]. by rewrite lookup_insert_ne.
Qed.

Lemma obj_set_lookup_eq o k v : k ≠ "__proto__" → obj_set o k v !! k = Some v.
Proof.
  intros Hne. unfold obj_set.
  destruct (String.eqb_spec k "__proto__"); [done|]. by rewrite lookup_insert_eq.
Qed.

(** The key ["__proto__"] never becomes an own property. *)
Lemma obj_set_proto o k v :
  o !! "__proto__" = None → obj_set o k v !! "__proto__" = None.
Proof.
  intros Ho. unfold obj_set.
  destruct (String.eqb_spec k "__proto__"); [done|]. by rewrite lookup_insert_ne.
Qed.

Lemma initDegrees_from_proto nodes o :
  o !! "__proto__" = None →
  fold_left (fun o node => obj_set o (id node) (Count 0)) nodes o !! "__proto__" = None.
Proof.
  revert o. induction nodes as [|n nodes IH]; intros o Ho; simpl; [done|].
  apply IH. by apply obj_set_proto.
Qed.

Lemma initDegrees_from_zero nodes o k :
  k ≠ "__proto__" →
  o !! k = Some (Count 0) ∨ Exists (fun n => id n = k) nodes →
  fold_left (fun o node => obj_set o (id node) (Count 0)) nodes o !! k = Some (Count 0).
Proof.
  intros Hk. revert o. induction nodes as [|n nodes IH]; intros o H; simpl.
  - destruct H as [H|H]; [done|]. by apply Exists_nil in H.
  - apply IH. destruct (decide (id n = k)) as [->|Hne].
    + left. by apply obj_set_lookup_eq.
    + destruct H as [H|H].
      * left. by rewrite obj_set_lookup_ne.
      * apply Exists_cons in H as [H|H]; [done|]. by right.
Qed.

(** One edge adds one to the slot of its source and one to the slot of its
    target; both additions land on the same slot for a self-loop. *)
Lemma countEdge_lookup o e k c :
  k ≠ "__proto__" →
  o !! k = Some (Count c) →
  countEdge o e !! k =
    Some (Count (c + (if String.eqb (source e) k then 1 else 0)
                   + (if String.eqb (target e) k then 1 else 0))).
Proof.
  intros Hk Ho. unfold countEdge.
  set (o1 := obj_set o (source e) _).
  assert (H1 : o1 !! k = Some (Count (c + if String.eqb (source e) k then 1 else 0))).
  { subst o1. destruct (String.eqb_spec (source e) k) as [->|Hne].
    - rewrite obj_set_lookup_eq by done. unfold obj_get. rewrite Ho. simpl.
      do 2 f_equal. lia.
    - rewrite obj_set_lookup_ne by done. rewrite Ho. do 2 f_equal. lia. }
  destruct (String.eqb_spec (target e) k) as [->|Hne].
  - rewrite obj_set_lookup_eq by done. unfold obj_get. rewrite H1. simpl.
    do 2 f_equal. lia.
  - rewrite obj_set_lookup_ne by done. rewrite H1. do 2 f_equal. lia.
Qed.

Lemma countEdge_proto o e :
  o !! "__proto__" = None → countEdge o e !! "__proto__" = None.
Proof. intros Ho. unfold countEdge. by do 2 apply obj_set_proto. Qed.

Lemma countEdges_lookup edges o k c :
  k ≠ "__proto__" →
  o !! k = Some (Count c) →
  fold_left countEdge edges o !! k =
    Some (Count (c + asSource k edges + asTarget k edges)).
Proof.
  intros Hk. revert o c. unfold asSource, asTarget.
  induction edges as [|e edges IH]; intros o c Ho; simpl.
  - rewrite Ho. do 2 f_equal. lia.
  - rewrite (IH _ _ (countEdge_lookup o e k c Hk Ho)).
    destruct (String.eqb (source e) k), (String.eqb (target e) k); simpl;
      do 2 f_equal; lia.
Qed.

Lemma countEdges_proto edges o :
  o !! "__proto__" = None → fold_left countEdge edges o !! "__proto__" = None.
Proof.
  revert o. induction edges as [|e edges IH]; intros o Ho; simpl; [done|].
  apply IH. by apply countEdge_proto.
Qed.

(** What the degree pass stores in each node: the number of edge endpoints
    that carry the node's id, except for a node whose id is ["__proto__"],
    which receives the prototype object. *)
Lemma computeDegrees_spec (nodes : list Node) (edges : list Edge) :
  computeDegrees nodes edges =
    map (fun n =>
           set_degree
             (if String.eqb (id n) "__proto__" then Inherited
              else Count (asSource (id n) edges + asTarget (id n) edges)) n)
        nodes.
Proof.
  unfold computeDegrees. apply map_ext_in. intros n Hn. f_equal.
  unfold obj_get, nodeDegrees, initDegrees.
  destruct (String.eqb_spec (id n) "__proto__") as [->|Hne].
  - rewrite countEdges_proto; [done|]. by apply initDegrees_from_proto.
  - rewrite (countEdges_lookup edges _ (id n) 0); [done..|].
    apply initDegrees_from_zero; [done|]. right. apply Exists_exists.
    exists n. split; [by apply list_elem_of_In|done].
Qed.

(** For every id other than ["__proto__"] the degree is the count the
    specification asks for. *)
Lemma degree_correct_ordinary_id (nodes : list Node) (edges : list Edge) i n :
  nodes !! i = Some n →
  id n ≠ "__proto__" →
  computeDegrees nodes edges !! i =
    Some (set_degree (Count (asSource (id n) edges + asTarget (id n) edges)) n).
Proof.
  intros Hi Hne. rewrite computeDegrees_spec.
  change (@map Node Node) with (@fmap list _ Node Node).
  rewrite list_lookup_fmap, Hi. simpl.
  by destruct (String.eqb_spec (id n) "__proto__").
Qed.

End Degrees.

(** C2: a node whose id is ["__proto__"] does not get the number of its edge
    endpoints as degree: with one edge leaving it, one self-loop on it and one
    other node, its degree is the inherited prototype object (not a number),
    while the other node is counted correctly. *)
Theorem degree_of_proto_node_is_not_a_count :
  map degree (computeDegrees protoNodes protoEdges) = [Inherited; Count 1]
  ∧ asSource "__proto__" protoEdges + asTarget "__proto__" protoEdges = 3.
Proof. vm_compute. done. Qed.

(** ** Filter engine *)

Section Filter.

(** An array [filter] with a boolean callback selects the elements the
    matching proposition holds of, in source order. *)
Lemma array_filter_as_comprehension {A} (f : A → bool) (P : A → Prop)
    `{∀ a, Decision (P a)} (l : list A) :
  (∀ a, f a = true ↔ P a) → List.filter f l = filter P l.
Proof.
  intros Hf. induction l as [|a l IH]; [done|].
  simpl. rewrite filter_cons, IH.
  destruct (f a) eqn:E; case_decide as HP; try done.
  - by apply Hf in E.
  - apply Hf in HP. congruence.
Qed.

Lemma array_filter_length_mono {A} (f g : A → bool) (l : list A) :
  (∀ a, f a = true → g a = true) →
  (List.length (List.filter f l) ≤ List.length (List.filter g l))%nat.
Proof.
  intros Hfg. induction l as [|a l IH]; [done|]. simpl.
  destruct (f a) eqn:E.
  - rewrite (Hfg a E). simpl. lia.
  - destruct (g a); simpl; lia.
Qed.

Lemma degree_gt_spec d threshold (n : Node) :
  degree n = d → degree_gt d threshold = true ↔ degreeAbove threshold n.
Proof.
  intros <-. unfold degree_gt, degreeAbove.
  destruct (degree n); [apply Z.ltb_lt|done].
Qed.

(** Membership in the id set is being the id of a visible node. *)
Lemma filteredNodeIds_spec (visible : list Node) (k : string) :
  k ∈ filteredNodeIds visible ↔ Exists (fun n => id n = k) visible.
Proof.
  unfold filteredNodeIds. rewrite elem_of_list_to_set, list_elem_of_In, in_map_iff.
  rewrite Exists_exists. setoid_rewrite list_elem_of_In.
  split; [intros (n & <- & Hn)|intros (n & Hn & <-)]; eauto.
Qed.

End Filter.

(** On a graph as loaded, whose edge objects hold id strings, the filter
    returns exactly the nodes whose degree is strictly greater than the degree
    threshold and the edges whose weight is at least the weight threshold and
    whose source and target ids are both ids of visible nodes, each in source
    order. *)
Lemma filterGraph_on_load (nodes : list Node) (edges : list Edge)
    (weightThreshold : Js.number) (degreeThreshold : Z) :
  filterGraph nodes edges weightThreshold degreeThreshold =
    (spec_visibleNodes nodes degreeThreshold,
     spec_visibleEdges nodes edges weightThreshold degreeThreshold).
Proof.
  unfold filterGraph, spec_visibleEdges, spec_visibleNodes.
  assert (Hn : filteredNodes nodes degreeThreshold
               = filter (degreeAbove degreeThreshold) nodes).
  { apply array_filter_as_comprehension. intros n. by apply degree_gt_spec. }
  rewrite Hn. f_equal. apply array_filter_as_comprehension. intros e.
  unfold edgeVisible, passesFilter, fresh. simpl.
  rewrite !andb_true_iff, !bool_decide_eq_true, !filteredNodeIds_spec. tauto.
Qed.

(** On a graph as loaded, raising a threshold does not increase the number
    of elements that pass the corresponding filter. *)
Lemma filterGraph_monotone_on_load (nodes : list Node) (edges : list Edge) :
  (∀ w d1 d2, (d1 ≤ d2)%Z →
     (List.length (fst (filterGraph nodes edges w d2))
      ≤ List.length (fst (filterGraph nodes edges w d1)))%nat)
  ∧ (∀ w1 w2 d, Js.le w1 w2 = true →
     (List.length (snd (filterGraph nodes edges w2 d))
      ≤ List.length (snd (filterGraph nodes edges w1 d)))%nat).
Proof.
  split.
  - intros w d1 d2 Hd. simpl. apply array_filter_length_mono. intros n.
    unfold degree_gt. destruct (degree n); [|done].
    rewrite !Z.ltb_lt. lia.
  - intros w1 w2 d Hw. simpl. apply array_filter_length_mono. intros e.
    unfold passesFilter.
    rewrite !andb_true_iff. intros [[H ?] ?]. repeat split; try done.
    unfold Js.ge, Js.le in *. by apply SFleb_trans with w2.
Qed.

(** ** The rendering effect over several runs *)

Section Effect.

Lemma array_filter_member {A} (f : A → bool) (l : list A) (a : A) :
  a ∈ List.filter f l ↔ a ∈ l ∧ f a = true.
Proof. rewrite !list_elem_of_In. apply filter_In. Qed.

(** The first run of the effect selects the edge objects of the edges the
    filter on the loaded graph selects. *)
Lemma filteredEdges_fresh (nodes : list Node) (edges : list Edge)
    (w : Js.number) (d : Z) :
  filteredEdges (map fresh edges) w (filteredNodeIds (filteredNodes nodes d))
  = map fresh (snd (filterGraph nodes edges w d)).
Proof.
  simpl. unfold filteredEdges.
  induction edges as [|e edges IH]; [done|]. simpl.
  destruct (passesFilter w _ (fresh e)); simpl; by rewrite IH.
Qed.

(** An edge object whose endpoint is a node object never passes the filter. *)
Lemma initialised_never_passes (w : Js.number) (ids : gset string)
    (a b : Endpoint) (i : Z) (v : Js.number) :
  (∃ p, a = EndpointNode p) ∨ (∃ p, b = EndpointNode p) →
  passesFilter w ids (mkEdgeObject a b i v) = false.
Proof.
  unfold passesFilter. simpl. intros [[p ->]|[p ->]]; simpl.
  - by rewrite andb_false_r.
  - apply andb_false_r.
Qed.

(** An edge object that passes the filter holds two id strings, both ids of
    visible nodes. *)
Lemma passesFilter_ids (w : Js.number) (ids : gset string) (o : EdgeObject) :
  passesFilter w ids o = true →
  ∃ s t, obj_source o = EndpointId s ∧ obj_target o = EndpointId t
         ∧ s ∈ ids ∧ t ∈ ids ∧ Js.ge (obj_weight o) w = true.
Proof.
  unfold passesFilter. rewrite !andb_true_iff. intros [[Hw Hs] Ht].
  destruct (obj_source o) as [s|]; [|done].
  destruct (obj_target o) as [t|]; [|done].
  simpl in *. apply bool_decide_eq_true in Hs, Ht. by exists s, t.
Qed.

(** The map of the link force has a node for every id of a visible node. *)
Lemma nodeById_visible (nodes : list Node) (d : Z) (k : string) (i : nat) :
  k ∈ filteredNodeIds (filteredNodes nodes d) → is_Some (nodeById nodes d k i).
Proof.
  rewrite filteredNodeIds_spec, Exists_exists.
  intros (n & Hn & Hid). apply array_filter_member in Hn as [Hn Hdeg].
  revert i. induction nodes as [|m nodes IH]; intros i;
    [by apply elem_of_nil in Hn|].
  simpl. apply elem_of_cons in Hn as [<-|Hn].
  - destruct (nodeById nodes d k (S i)); [by eexists|].
    rewrite Hdeg. apply String.eqb_eq in Hid. rewrite Hid. by eexists.
  - destruct (IH Hn (S i)) as [j ->]. by eexists.
Qed.

(** The link force does not throw on an edge that passed the filter, and
    leaves it with two node objects. *)
Lemma initializeLink_passes (nodes : list Node) (w : Js.number) (d : Z)
    (o : EdgeObject) :
  passesFilter w (filteredNodeIds (filteredNodes nodes d)) o = true →
  ∃ p q, initializeLink (fun k => nodeById nodes d k 0) o
         = Some (mkEdgeObject (EndpointNode p) (EndpointNode q)
                   (obj_id o) (obj_weight o)).
Proof.
  intros (s & t & Hs & Ht & Hsi & Hti & _)%passesFilter_ids.
  destruct (nodeById_visible nodes d s 0 Hsi) as [p Hp].
  destruct (nodeById_visible nodes d t 0 Hti) as [q Hq].
  exists p, q. unfold initializeLink, resolveEndpoint.
  by rewrite Hs, Ht, Hp, Hq.
Qed.

(** A run never throws.  In [data.edges] as it leaves it, the edges that
    passed the filter hold node objects and the others are unchanged. *)
Lemma initializeLinks_spec (nodes : list Node) (w : Js.number) (d : Z)
    (edges : list EdgeObject) :
  ∃ edges',
    initializeLinks (passesFilter w (filteredNodeIds (filteredNodes nodes d)))
      (fun k => nodeById nodes d k 0) edges = Some edges'
    ∧ Forall2 (fun o o' =>
        obj_id o' = obj_id o ∧ obj_weight o' = obj_weight o
        ∧ if passesFilter w (filteredNodeIds (filteredNodes nodes d)) o
          then ∃ p q, obj_source o' = EndpointNode p ∧ obj_target o' = EndpointNode q
          else o' = o) edges edges'.
Proof.
  induction edges as [|o edges (edges' & IH & Hall)].
  { exists nil. split; [reflexivity|apply Forall2_nil_2]. }
  simpl. rewrite IH.
  destruct (passesFilter w _ o) eqn:Hpass.
  - destruct (initializeLink_passes nodes w d o Hpass) as (p & q & ->).
    eexists. split; [reflexivity|]. constructor; [|done].
    rewrite Hpass. simpl. split; [done|]. split; [done|]. by exists p, q.
  - exists (o :: edges'). split; [done|]. constructor; [|done].
    by rewrite Hpass.
Qed.

Lemma renderEffect_spec (nodes : list Node) (edges : list EdgeObject)
    (w : Js.number) (d : Z) :
  ∃ edges',
    renderEffect nodes edges w d
    = Some (filteredNodes nodes d,
            filteredEdges edges w (filteredNodeIds (filteredNodes nodes d)),
            edges')
    ∧ Forall2 (fun o o' =>
        obj_id o' = obj_id o ∧ obj_weight o' = obj_weight o
        ∧ if passesFilter w (filteredNodeIds (filteredNodes nodes d)) o
          then ∃ p q, obj_source o' = EndpointNode p ∧ obj_target o' = EndpointNode q
          else o' = o) edges edges'.
Proof.
  destruct (initializeLinks_spec nodes w d edges) as (edges' & H & Hall).
  exists edges'. unfold renderEffect. by rewrite H.
Qed.

End Effect.

(** C1: the filter returns the edges whose weight is at least the weight
    threshold and whose endpoints are visible in the first run of the effect
    only.  On two nodes joined by three edges of weight 0.001, 0.00075 and
    0.0009, the first run, under the initial thresholds, selects the first
    and the third edge.  A second run under the same thresholds selects no
    edge, although both still have a weight of at least 0.0008 and join the
    two visible nodes: the first run left node objects in their [source] and
    [target]. *)
Theorem rerun_selects_no_edge :
  renderEffect loadedNodes (map fresh threeEdges)
    initialWeightThreshold initialDegreeThreshold
  = Some (loadedNodes,
          map fresh (spec_visibleEdges loadedNodes threeEdges
                       initialWeightThreshold initialDegreeThreshold),
          edgesAfterFirstRun)
  ∧ List.length (spec_visibleEdges loadedNodes threeEdges
                   initialWeightThreshold initialDegreeThreshold) = 2
  ∧ fst <$> renderEffect loadedNodes edgesAfterFirstRun
              initialWeightThreshold initialDegreeThreshold
    = Some (loadedNodes, []).
Proof. vm_compute. done. Qed.





(** ** Simulation step and tick handler *)

Section Tick.

Variable F : Forces.

Lemma simulationStep_lookup (sim : Simulation) (i : nat) :
  sim_nodes (simulationStep F sim) !! i = stepNode F sim <$> sim_nodes sim !! i.
Proof.
  unfold simulationStep, d3_tick, ticked. simpl.
  rewrite map_map.
  change (@map Node Node) with (@fmap list _ Node Node).
  by rewrite list_lookup_fmap.
Qed.

Lemma rendered_lookup (nodes : list Node) (i : nat) :
  rendered nodes !! i = (fun d => (x d, y d)) <$> nodes !! i.
Proof.
  unfold rendered.
  change (@map Node (Js.number * Js.number))
    with (@fmap list _ Node (Js.number * Js.number)).
  by rewrite list_lookup_fmap.
Qed.







End Tick.

(** Facts about the two clamp intervals. *)
Lemma clampX_range (v : Js.number) :
  clampX v ≠ Js.NaN →
  Js.le (Js.of_Z 5) (clampX v) = true
  ∧ Js.le (clampX v) (Js.sub width (Js.of_Z 5)) = true.
Proof. by apply clamp_range. Qed.

Lemma clampY_range (v : Js.number) :
  clampY v ≠ Js.NaN →
  Js.le (Js.of_Z 5) (clampY v) = true
  ∧ Js.le (clampY v) (Js.sub height (Js.of_Z 5)) = true.
Proof. by apply clamp_range. Qed.

Lemma clampX_inside (v : Js.number) :
  Js.le (Js.of_Z 5) v = true → Js.le v (Js.sub width (Js.of_Z 5)) = true →
  clampX v = v.
Proof. by apply clamp_inside. Qed.

Lemma clampY_inside (v : Js.number) :
  Js.le (Js.of_Z 5) v = true → Js.le v (Js.sub height (Js.of_Z 5)) = true →
  clampY v = v.
Proof. by apply clamp_inside. Qed.




(** C6 (as stated): the margin kept is not the node's radius.  A node of
    degree 4 has radius 7; pushed to x = 0 it is rendered at x = 5. *)
Lemma rendered_closer_than_radius :
  rendered (sim_nodes (simulationStep noForces (oneNodeSimulation hubAtLeftBorder)))
    = [(Js.of_Z 5, Js.of_Z 300)]
  ∧ radius hubAtLeftBorder = Js.of_Z 7
  ∧ Js.le (radius hubAtLeftBorder) (Js.of_Z 5) = false.
Proof. vm_compute. done. Qed.

(** C6 (amended): after every step, every rendered coordinate that is a
    number lies within [5, width - 5] on the x axis and [5, height - 5] on the
    y axis, the same margin of 5 for every node. *)
Theorem rendered_within_fixed_margin (F : Forces) (sim : Simulation) (i : nat)
    (p : Js.number * Js.number) :
  rendered (sim_nodes (simulationStep F sim)) !! i = Some p →
  fst p ≠ Js.NaN → snd p ≠ Js.NaN →
  Js.le (Js.of_Z 5) (fst p) = true
  ∧ Js.le (fst p) (Js.sub width (Js.of_Z 5)) = true
  ∧ Js.le (Js.of_Z 5) (snd p) = true
  ∧ Js.le (snd p) (Js.sub height (Js.of_Z 5)) = true.
Proof.
  rewrite rendered_lookup, simulationStep_lookup.
  destruct (sim_nodes sim !! i) as [d|]; [|done].
  simpl. intros [= <-]. simpl. intros Hx Hy.
  destruct (clampX_range _ Hx), (clampY_range _ Hy). done.
Qed.

Lemma rendered_within_fixed_margin_witness :
  Js.le (Js.of_Z 5) (Js.of_Z 5) = true
  ∧ Js.le (Js.of_Z 5) (Js.sub width (Js.of_Z 5)) = true
  ∧ Js.le (Js.of_Z 5) (Js.of_Z 300) = true
  ∧ Js.le (Js.of_Z 300) (Js.sub height (Js.of_Z 5)) = true.
Proof.
  apply (rendered_within_fixed_margin noForces (oneNodeSimulation hubAtLeftBorder)
           0 (Js.of_Z 5, Js.of_Z 300));
    [reflexivity|discriminate|discriminate].
Defined.

(** ** Drag handlers *)

(** C8: on drag start, when no other drag is active, [alphaTarget] becomes the
    positive value 0.3 and the simulation is running, and the dragged node is
    pinned at its current position: its [fx] and [fy] are its [x] and [y]; on
    every drag move its [fx] and [fy] are the pointer coordinates; on drag
    end, when no other drag is active, [alphaTarget] is 0 again, and the
    [fx] and [fy] of the node are null.  The handlers leave the position of
    the node as it is. *)
Theorem drag_lifecycle (event : DragEvent) (sim : Simulation) (d : Node) :
  sim_nodes sim !! subject event = Some d →
  (active event = 0 →
     alphaTarget (dragstarted event sim) = restingAlphaTarget
     ∧ Js.lt (Js.of_Z 0) restingAlphaTarget = true
     ∧ running (dragstarted event sim) = true)
  ∧ (∃ d1, sim_nodes (dragstarted event sim) !! subject event = Some d1
           ∧ fx d1 = Some (x d) ∧ fy d1 = Some (y d)
           ∧ x d1 = x d ∧ y d1 = y d)
  ∧ (∃ d2, sim_nodes (dragged event sim) !! subject event = Some d2
           ∧ fx d2 = Some (ev_x event) ∧ fy d2 = Some (ev_y event)
           ∧ x d2 = x d ∧ y d2 = y d)
  ∧ (active event = 0 → alphaTarget (dragended event sim) = Js.of_Z 0)
  ∧ (∃ d3, sim_nodes (dragended event sim) !! subject event = Some d3
           ∧ fx d3 = None ∧ fy d3 = None
           ∧ x d3 = x d ∧ y d3 = y d).
Proof.
  intros Hd. unfold dragstarted, dragged, dragended, update_subject.
  split; [|split; [|split; [|split]]].
  - intros ->. repeat split; reflexivity.
  - exists (set_pin (Some (x d)) (Some (y d)) d). split; [|done].
    destruct (Nat.eqb (active event) 0); simpl;
      by rewrite list_lookup_alter_eq, Hd.
  - exists (set_pin (Some (ev_x event)) (Some (ev_y event)) d). split; [|done].
    simpl. by rewrite list_lookup_alter_eq, Hd.
  - intros ->. reflexivity.
  - exists (set_pin None None d). split; [|done].
    destruct (Nat.eqb (active event) 0); simpl;
      by rewrite list_lookup_alter_eq, Hd.
Qed.

Lemma drag_lifecycle_witness :
  alphaTarget (dragstarted firstDrag (oneNodeSimulation hubAtLeftBorder))
    = restingAlphaTarget
  ∧ (∃ d2, sim_nodes (dragged firstDrag (oneNodeSimulation hubAtLeftBorder)) !! 0
           = Some d2
           ∧ fx d2 = Some (Js.of_Z 50) ∧ fy d2 = Some (Js.of_Z 50))
  ∧ alphaTarget (dragended firstDrag (oneNodeSimulation hubAtLeftBorder))
    = Js.of_Z 0.
Proof.
  destruct (drag_lifecycle firstDrag (oneNodeSimulation hubAtLeftBorder)
              hubAtLeftBorder eq_refl)
    as (Hs & _ & (d2 & Hd2 & Hx & Hy & _) & He & _).
  split; [apply Hs; reflexivity|]. split; [by exists d2|]. apply He. reflexivity.
Defined.

(** * Further properties *)

(** ** Filter engine, continued *)

Section FilterMore.

Lemma array_filter_all {A} (f : A → bool) (l : list A) :
  (∀ a, a ∈ l → f a = true) → List.filter f l = l.
Proof.
  induction l as [|a l IH]; intros H; [done|]. simpl.
  rewrite (H a) by left. f_equal. apply IH. intros b Hb. apply H. by right.
Qed.

Lemma array_filter_elem {A} (f : A → bool) (l : list A) (a : A) :
  a ∈ List.filter f l ↔ a ∈ l ∧ f a = true.
Proof. rewrite !list_elem_of_In. apply filter_In. Qed.

Lemma array_filter_sublist {A} (f g : A → bool) (l : list A) :
  (∀ a, f a = true → g a = true) → sublist (List.filter f l) (List.filter g l).
Proof.
  intros Hfg. induction l as [|a l IH]; [done|]. simpl.
  destruct (f a) eqn:E.
  - rewrite (Hfg a E). by apply sublist_skip.
  - destruct (g a); [by apply sublist_cons|done].
Qed.

Lemma sublist_filter_array {A} (f : A → bool) (l : list A) :
  sublist (List.filter f l) l.
Proof.
  induction l as [|a l IH]; [done|]. simpl.
  destruct (f a); [by apply sublist_skip|by apply sublist_cons].
Qed.

Lemma filteredNodeIds_elem (visible : list Node) (k : string) :
  k ∈ filteredNodeIds visible ↔ ∃ n, n ∈ visible ∧ id n = k.
Proof. rewrite filteredNodeIds_spec, Exists_exists. done. Qed.

End FilterMore.

(** X1: an edge one of whose endpoints is the id of no node of the graph is
    never among the visible edges, whatever the thresholds. *)
Theorem dangling_edge_never_visible (nodes : list Node) (edges : list Edge)
    (w : Js.number) (d : Z) (e : Edge) :
  (∀ n, n ∈ nodes → id n ≠ source e) ∨ (∀ n, n ∈ nodes → id n ≠ target e) →
  e ∉ snd (filterGraph nodes edges w d).
Proof.
  intros Hdangling Hin. simpl in Hin.
  apply array_filter_elem in Hin as [_ Hin].
  unfold passesFilter, fresh in Hin. simpl in Hin.
  rewrite !andb_true_iff, !bool_decide_eq_true, !filteredNodeIds_elem in Hin.
  destruct Hin as [[_ (n1 & Hn1 & E1)] (n2 & Hn2 & E2)].
  apply array_filter_elem in Hn1 as [Hn1 _].
  apply array_filter_elem in Hn2 as [Hn2 _].
  destruct Hdangling as [H|H]; [by apply (H n1)|by apply (H n2)].
Qed.

Lemma dangling_edge_never_visible_witness :
  mkEdge "A" "Z" 2 (Js.of_Z 3)
  ∉ snd (filterGraph twoNodes (mkEdge "A" "Z" 2 (Js.of_Z 3) :: twoEdges) (Js.of_Z 0) 0).
Proof.
  apply dangling_edge_never_visible. right.
  intros n Hn. unfold twoNodes in Hn. set_unfold in Hn.
  destruct Hn as [->|[->|[]]]; discriminate.
Defined.

(** X2: an edge is drawn in one run of the effect at most.  A run never
    throws; the edges it selects leave it with node objects as endpoints, and
    such an edge is selected by no later run, whatever the nodes and the
    thresholds of that run.  In particular a second run under the same
    thresholds, over nodes with the same ids and degrees, selects no edge at
    all. *)
Theorem drawn_edges_are_never_selected_again (nodes : list Node)
    (edges : list EdgeObject) (w : Js.number) (d : Z) :
  ∃ edges',
    renderEffect nodes edges w d
    = Some (filteredNodes nodes d,
            filteredEdges edges w (filteredNodeIds (filteredNodes nodes d)),
            edges')
    ∧ (∀ i o, edges !! i = Some o →
         passesFilter w (filteredNodeIds (filteredNodes nodes d)) o = true →
         ∃ o', edges' !! i = Some o'
               ∧ ∀ w2 ids2, passesFilter w2 ids2 o' = false)
    ∧ (∀ nodes2,
         map id nodes2 = map id nodes → map degree nodes2 = map degree nodes →
         filteredEdges edges' w (filteredNodeIds (filteredNodes nodes2 d)) = []).
Proof.
  destruct (renderEffect_spec nodes edges w d) as (edges' & Hrun & Hall).
  exists edges'. split; [exact Hrun|]. split.
  - intros i o Hi Hpass.
    destruct (Forall2_lookup_l _ _ _ _ _ Hall Hi) as (o' & Hi' & _ & _ & Ho').
    rewrite Hpass in Ho'. destruct Ho' as (p & q & Hs & Ht).
    exists o'. split; [done|]. intros w2 ids2. destruct o' as [a b n v].
    simpl in *. subst. apply initialised_never_passes. left. by exists p.
  - intros nodes2 Hid Hdeg.
    assert (Hids : filteredNodeIds (filteredNodes nodes2 d)
                   = filteredNodeIds (filteredNodes nodes d)).
    { unfold filteredNodeIds. f_equal. unfold filteredNodes.
      clear -Hid Hdeg. revert nodes2 Hid Hdeg.
      induction nodes as [|n nodes IH]; intros [|n2 nodes2] Hid Hdeg;
        simpl in *; try done.
      injection Hid as Hn Hid. injection Hdeg as Hd Hdeg. rewrite Hd.
      destruct (degree_gt (degree n) d); simpl; rewrite ?Hn; by rewrite (IH nodes2). }
    rewrite Hids. clear Hrun. unfold filteredEdges.
    induction Hall as [|o o' edges edges' (_ & Hw & Ho) _ IH]; [done|].
    simpl. rewrite IH.
    destruct (passesFilter w _ o) eqn:Hpass.
    + destruct Ho as (p & q & Hs & Ht). destruct o' as [a b n v]. simpl in *.
      subst. rewrite initialised_never_passes; [done|]. left. by exists p.
    + subst o'. by rewrite Hpass.
Qed.

(** X3: raising the degree threshold only removes nodes: the nodes visible
    under the higher threshold are a sublist, in the same order, of those
    visible under the lower one. *)
Theorem filteredNodes_antitone (nodes : list Node) (d1 d2 : Z) :
  (d1 ≤ d2)%Z → sublist (filteredNodes nodes d2) (filteredNodes nodes d1).
Proof.
  intros Hd. apply array_filter_sublist. intros n.
  unfold degree_gt. destruct (degree n); [|done]. rewrite !Z.ltb_lt. lia.
Qed.

Lemma filteredNodes_antitone_witness :
  sublist (filteredNodes twoNodes 1) (filteredNodes twoNodes 0).
Proof. apply filteredNodes_antitone. lia. Defined.

(** X4: the two counts shown above the graph, in every run.  The node count
    is the number of visible nodes.  The edge count tests the weight only: it
    is at least the number of edges the filter selects.  Without data both
    counts are 0. *)
Theorem displayed_counts (nodes : list Node) (edges : list EdgeObject)
    (w : Js.number) (d : Z) :
  filteredNodeCount (Some (nodes, edges)) d = List.length (filteredNodes nodes d)
  ∧ (List.length (filteredEdges edges w (filteredNodeIds (filteredNodes nodes d)))
     ≤ filteredEdgeCount (Some (nodes, edges)) w)%nat
  ∧ filteredNodeCount None d = 0
  ∧ filteredEdgeCount None w = 0.
Proof.
  split; [done|]. split; [|done].
  simpl. apply array_filter_length_mono. intros e. unfold passesFilter.
  rewrite !andb_true_iff. tauto.
Qed.

(** ** Degree calculator, continued *)

Section DegreesMore.

(** In a list of distinct keys that has [k], exactly one key equals [k]. *)
Lemma sum_indicator (keys : list string) (k : string) :
  NoDup keys → k ∈ keys →
  sum_list (map (fun k' => if String.eqb k k' then 1 else 0) keys) = 1.
Proof.
  induction keys as [|a keys IH]; intros Hnd Hin; [by apply elem_of_nil in Hin|].
  apply NoDup_cons in Hnd as [Ha Hnd]. simpl.
  destruct (String.eqb_spec k a) as [->|Hne].
  - f_equal. clear IH Hin Hnd.
    induction keys as [|b keys IH]; [done|]. simpl.
    apply not_elem_of_cons in Ha as [Hab Ha].
    destruct (String.eqb_spec a b); [done|]. by apply IH.
  - apply elem_of_cons in Hin as [?|Hin]; [done|]. by apply IH.
Qed.

(** Counting the edges per key and adding up over all keys counts every
    edge once. *)
Lemma sum_per_key (key : Edge → string) (keys : list string) (edges : list Edge) :
  NoDup keys → (∀ e, e ∈ edges → key e ∈ keys) →
  sum_list (map (fun k => List.length (List.filter (fun e => String.eqb (key e) k) edges))
              keys)
  = List.length edges.
Proof.
  intros Hnd. induction edges as [|e edges IH]; intros Hin.
  - clear. induction keys as [|k keys IHk]; [done|]. simpl. exact IHk.
  - transitivity
      (sum_list (map (fun k => if String.eqb (key e) k then 1 else 0) keys)
       + sum_list (map (fun k => List.length
                                   (List.filter (fun e => String.eqb (key e) k) edges))
                     keys)).
    + clear. induction keys as [|k keys IHk]; [done|]. simpl in *.
      destruct (String.eqb (key e) k); simpl; lia.
    + rewrite IH by (intros e' He'; apply Hin; by right).
      rewrite (sum_indicator keys (key e) Hnd) by (apply Hin; by left).
      reflexivity.
Qed.

Lemma sum_list_add {A} (f g : A → nat) (l : list A) :
  sum_list (map (fun a => f a + g a) l) = sum_list (map f l) + sum_list (map g l).
Proof. induction l as [|a l IH]; [done|]. simpl. lia. Qed.

Lemma set_degree_id d n : id (set_degree d n) = id n.
Proof. reflexivity. Qed.

Lemma computeDegrees_ids (nodes : list Node) (edges : list Edge) :
  map id (computeDegrees nodes edges) = map id nodes.
Proof. unfold computeDegrees. rewrite map_map. by apply map_ext. Qed.

(** An id has a positive count exactly when some edge carries it. *)
Lemma endpoint_count_positive (k : string) (edges : list Edge) :
  (0 < asSource k edges + asTarget k edges)%nat
  ↔ ∃ e, e ∈ edges ∧ (source e = k ∨ target e = k).
Proof.
  unfold asSource, asTarget. induction edges as [|e edges IH]; simpl.
  - split; [lia|]. intros (e & He & _). by apply elem_of_nil in He.
  - destruct (String.eqb_spec (source e) k) as [Hs|Hs];
      destruct (String.eqb_spec (target e) k) as [Ht|Ht]; simpl.
    1-3: split; [intros _; exists e; split; [by left|tauto]|lia].
    rewrite IH. split.
    + intros (e' & He' & H). exists e'. split; [by right|done].
    + intros (e' & He' & H). apply elem_of_cons in He' as [->|He']; [tauto|eauto].
Qed.

End DegreesMore.

(** X5: the degrees add up to twice the number of edges, when the node ids
    are pairwise distinct, none is ["__proto__"], and every edge endpoint is
    the id of a node. *)
Theorem degrees_sum_to_twice_edges (nodes : list Node) (edges : list Edge) :
  NoDup (map id nodes) →
  (∀ n, n ∈ nodes → id n ≠ "__proto__") →
  (∀ e, e ∈ edges → source e ∈ map id nodes ∧ target e ∈ map id nodes) →
  ∃ counts,
    map degree (computeDegrees nodes edges) = map Count counts
    ∧ sum_list counts = 2 * List.length edges.
Proof.
  intros Hnd Hproto Hclosed.
  exists (map (fun k => asSource k edges + asTarget k edges) (map id nodes)).
  split.
  - rewrite computeDegrees_spec, !map_map. apply map_ext_in. intros n Hn. simpl.
    apply list_elem_of_In, Hproto in Hn.
    by destruct (String.eqb_spec (id n) "__proto__").
  - rewrite sum_list_add. unfold asSource, asTarget.
    rewrite (sum_per_key source), (sum_per_key target); [lia|done| |done|];
      intros e He; by apply Hclosed.
Qed.

Lemma degrees_sum_to_twice_edges_witness :
  ∃ counts,
    map degree (computeDegrees twoNodes twoEdges) = map Count counts
    ∧ sum_list counts = 2 * List.length twoEdges.
Proof.
  apply degrees_sum_to_twice_edges.
  - compute_done.
  - intros n Hn. unfold twoNodes in Hn. set_unfold in Hn.
    destruct Hn as [->|[->|[]]]; discriminate.
  - intros e He. unfold twoEdges in He. set_unfold in He.
    destruct He as [->|[->|[]]]; split; compute_done.
Defined.

(** X6: the degree pass keeps the nodes, their order, ids and labels, and
    running it again on its own result changes nothing. *)
Theorem computeDegrees_stable (nodes : list Node) (edges : list Edge) :
  map id (computeDegrees nodes edges) = map id nodes
  ∧ map label (computeDegrees nodes edges) = map label nodes
  ∧ computeDegrees (computeDegrees nodes edges) edges = computeDegrees nodes edges.
Proof.
  split; [apply computeDegrees_ids|]. split.
  - unfold computeDegrees. rewrite map_map. by apply map_ext.
  - rewrite (computeDegrees_spec (computeDegrees nodes edges)).
    rewrite computeDegrees_spec, map_map. by apply map_ext.
Qed.

(** X7: right after loading, under the initial degree threshold 0, a node
    whose id is not ["__proto__"] is visible exactly when some edge has its id
    as source or target; isolated nodes are hidden. *)
Theorem visible_at_threshold_zero (nodes : list Node) (edges : list Edge)
    (w : Js.number) (n : Node) :
  n ∈ computeDegrees nodes edges →
  id n ≠ "__proto__" →
  n ∈ fst (filterGraph (computeDegrees nodes edges) edges w 0)
  ↔ ∃ e, e ∈ edges ∧ (source e = id n ∨ target e = id n).
Proof.
  intros Hn Hproto.
  assert (Hdeg : degree n = Count (asSource (id n) edges + asTarget (id n) edges)).
  { rewrite computeDegrees_spec in Hn.
    apply list_elem_of_In, in_map_iff in Hn as (m & <- & _). simpl in *.
    by destruct (String.eqb_spec (id m) "__proto__"). }
  simpl. unfold filteredNodes.
  rewrite array_filter_elem, Hdeg, <- endpoint_count_positive. simpl.
  rewrite Z.ltb_lt. split; [lia|]. intros H. split; [done|lia].
Qed.

Lemma visible_at_threshold_zero_witness :
  plainNode "B" (Count 3) (Js.of_Z 0) (Js.of_Z 0)
    ∈ fst (filterGraph (computeDegrees twoNodes twoEdges) twoEdges (Js.of_Z 0) 0)
  ↔ ∃ e, e ∈ twoEdges ∧ (source e = "B" ∨ target e = "B").
Proof.
  apply (visible_at_threshold_zero twoNodes twoEdges (Js.of_Z 0)
           (plainNode "B" (Count 3) (Js.of_Z 0) (Js.of_Z 0))).
  - vm_compute. apply list_elem_of_further, list_elem_of_here.
  - discriminate.
Defined.

(** X8: under the degree threshold 0, in every run, an edge that no run has
    selected yet (its object still holds the parser's id strings) is selected
    exactly when its weight passes the weight threshold, provided its
    endpoints are ids of nodes and are not ["__proto__"]: an edge makes both
    of its endpoints visible. *)
Theorem fresh_edge_at_threshold_zero (nodes : list Node) (edges : list Edge)
    (store : list EdgeObject) (w : Js.number) (e : Edge) :
  e ∈ edges → fresh e ∈ store →
  source e ∈ map id nodes → target e ∈ map id nodes →
  source e ≠ "__proto__" → target e ≠ "__proto__" →
  fresh e ∈ filteredEdges store w
              (filteredNodeIds (filteredNodes (computeDegrees nodes edges) 0))
  ↔ Js.ge (weight e) w = true.
Proof.
  intros He Hstore Hs Ht Hsp Htp.
  assert (Hvis : ∀ k, k ∈ map id nodes → k ≠ "__proto__" →
                 (source e = k ∨ target e = k) →
                 k ∈ filteredNodeIds (filteredNodes (computeDegrees nodes edges) 0)).
  { intros k Hk Hkp Hend.
    apply list_elem_of_In, in_map_iff in Hk as (n & <- & Hn).
    apply filteredNodeIds_elem.
    exists (set_degree (Count (asSource (id n) edges + asTarget (id n) edges)) n).
    split; [|done]. apply array_filter_elem. split.
    - rewrite computeDegrees_spec. apply list_elem_of_In, in_map_iff.
      exists n. split; [|done].
      by destruct (String.eqb_spec (id n) "__proto__").
    - simpl. apply Z.ltb_lt.
      assert (0 < asSource (id n) edges + asTarget (id n) edges)%nat; [|lia].
      apply endpoint_count_positive. eauto. }
  unfold filteredEdges. rewrite array_filter_elem. unfold passesFilter, fresh.
  simpl. rewrite !bool_decide_true, !andb_true_r by (apply Hvis; auto).
  tauto.
Qed.

Lemma fresh_edge_at_threshold_zero_witness :
  fresh (mkEdge "A" "B" 1 (Js.div (Js.of_Z 75) (Js.of_Z 100000)))
    ∈ filteredEdges edgesAfterFirstRun (Js.div (Js.of_Z 7) (Js.of_Z 10000))
        (filteredNodeIds
           (filteredNodes
              (computeDegrees [parsedNode ("A", "A"); parsedNode ("B", "B")] threeEdges)
              0))
  ↔ Js.ge (weight (mkEdge "A" "B" 1 (Js.div (Js.of_Z 75) (Js.of_Z 100000))))
      (Js.div (Js.of_Z 7) (Js.of_Z 10000)) = true.
Proof.
  apply (fresh_edge_at_threshold_zero
           [parsedNode ("A", "A"); parsedNode ("B", "B")] threeEdges
           edgesAfterFirstRun (Js.div (Js.of_Z 7) (Js.of_Z 10000))
           (mkEdge "A" "B" 1 (Js.div (Js.of_Z 75) (Js.of_Z 100000)))).
  - apply list_elem_of_further, list_elem_of_here.
  - vm_compute. apply list_elem_of_further, list_elem_of_here.
  - compute_done.
  - compute_done.
  - discriminate.
  - discriminate.
Defined.

(** ** Category classifier, continued *)

Section ClassifierMore.

Lemma startsWith_allChars (q : Ascii.ascii → bool) (s p : string) :
  Js.startsWith s p = true → allChars q s = true → allChars q p = true.
Proof.
  revert s. induction p as [|c p IH]; intros s; [done|].
  destruct s as [|d s]; [done|]. simpl.
  rewrite !andb_true_iff. intros [Hc Hp] [Hd Hs].
  apply Ascii.eqb_eq in Hc as ->. eauto.
Qed.

Lemma includes_allChars (q : Ascii.ascii → bool) (s p : string) :
  Js.includes s p = true → allChars q s = true → allChars q p = true.
Proof.
  induction s as [|d s IH].
  - intros H Hq. change (Js.includes EmptyString p)
      with (Js.startsWith EmptyString p || false) in H.
    rewrite orb_false_r in H. by eapply startsWith_allChars.
  - intros H Hq. change (Js.includes (String d s) p)
      with (Js.startsWith (String d s) p || Js.includes s p) in H.
    apply orb_true_iff in H as [H|H]; [by eapply startsWith_allChars|].
    apply IH; [done|]. simpl in Hq. by apply andb_true_iff in Hq as [_ ?].
Qed.

Lemma endsWith_allChars (q : Ascii.ascii → bool) (s p : string) :
  Js.endsWith s p = true → allChars q s = true → allChars q p = true.
Proof.
  induction s as [|d s IH].
  - simpl. rewrite orb_false_r. by destruct p.
  - intros H Hq. change (Js.endsWith (String d s) p)
      with (String.eqb (String d s) p || Js.endsWith s p) in H.
    apply orb_true_iff in H as [H|H].
    + apply String.eqb_eq in H. by subst.
    + apply IH; [done|]. simpl in Hq. by apply andb_true_iff in Hq as [_ ?].
Qed.

(** A pattern is found wherever a longer pattern that starts with it is. *)
Lemma startsWith_shorter (s p q : string) :
  Js.startsWith s (p ++ q) = true → Js.startsWith s p = true.
Proof.
  revert s. induction p as [|c p IH]; intros s; [by destruct s|].
  destruct s as [|d s]; [done|]. simpl.
  rewrite !andb_true_iff. intros [? ?]. eauto.
Qed.

Lemma includes_shorter (s p q : string) :
  Js.includes s (p ++ q) = true → Js.includes s p = true.
Proof.
  induction s as [|d s IH].
  - change (Js.includes EmptyString (p ++ q))
      with (Js.startsWith EmptyString (p ++ q) || false).
    change (Js.includes EmptyString p) with (Js.startsWith EmptyString p || false).
    rewrite !orb_false_r. apply startsWith_shorter.
  - change (Js.includes (String d s) (p ++ q))
      with (Js.startsWith (String d s) (p ++ q) || Js.includes s (p ++ q)).
    change (Js.includes (String d s) p)
      with (Js.startsWith (String d s) p || Js.includes s p).
    rewrite !orb_true_iff. intros [H|H]; [left; by eapply startsWith_shorter|auto].
Qed.

Lemma startsWith_includes (s p : string) :
  Js.startsWith s p = true → Js.includes s p = true.
Proof. intros H. destruct s; simpl in *; by rewrite H. Qed.

End ClassifierMore.

(** X9: classification is case-sensitive to the point that an id without
    any capital letter A-Z is always classified as Other. *)
Theorem id_without_capitals_is_Other (n : Node) :
  allChars (fun c => negb (Js.is_upper c)) (id n) = true →
  getNodeCategory n = "Other".
Proof.
  intros Hq. rewrite getNodeCategory_cascade.
  set (q := fun c => negb (Js.is_upper c)) in Hq.
  assert (Hinc : ∀ p, allChars q p = false → Js.includes (id n) p = false).
  { intros p Hp. destruct (Js.includes (id n) p) eqn:E; [|done].
    by rewrite (includes_allChars q _ _ E Hq) in Hp. }
  assert (Hst : ∀ p, allChars q p = false → Js.startsWith (id n) p = false).
  { intros p Hp. destruct (Js.startsWith (id n) p) eqn:E; [|done].
    by rewrite (startsWith_allChars q _ _ E Hq) in Hp. }
  assert (Hen : ∀ p, allChars q p = false → Js.endsWith (id n) p = false).
  { intros p Hp. destruct (Js.endsWith (id n) p) eqn:E; [|done].
    by rewrite (endsWith_allChars q _ _ E Hq) in Hp. }
  assert (Hre : Js.re_upper_then_digits (id n) = false).
  { destruct (id n) as [|c s]; [done|]. simpl in *.
    apply andb_true_iff in Hq as [Hc _]. unfold q in Hc.
    apply negb_true_iff in Hc. by rewrite Hc. }
  assert (Hca : categoryTest "Cancer" (id n) = false).
  { destruct (categoryTest "Cancer" (id n)) eqn:E; [|done].
    apply cancerList_cases in E. set_unfold in E.
    destruct E as [E|[E|[E|[E|[E|[E|[E|[E|[E|[E|[E|[]]]]]]]]]]]];
      rewrite E in Hq; discriminate Hq. }
  rewrite Hca.
  unfold categoryTest. simpl.
  rewrite Hre, !Hinc, !Hst, !Hen by reflexivity.
  by rewrite andb_false_r.
Qed.

Lemma id_without_capitals_is_Other_witness :
  getNodeCategory (plainNode "egfr" (Count 1) (Js.of_Z 0) (Js.of_Z 0)) = "Other".
Proof. apply id_without_capitals_is_Other. reflexivity. Defined.

(** X10: Cell Cycle is only ever returned for an id that contains "CCND".
    An id that contains "CDK", "CDC" or "CDKN" is never classified as Cell
    Cycle, because it contains "CD" and the Receptors test comes first. *)
Theorem Cell_Cycle_only_through_CCND (n : Node) :
  (getNodeCategory n = "Cell Cycle" → Js.includes (id n) "CCND" = true)
  ∧ (Js.includes (id n) "CDK" || Js.includes (id n) "CDC"
     || Js.includes (id n) "CDKN" = true →
     getNodeCategory n ≠ "Cell Cycle").
Proof.
  assert (Hshadow : categoryTest "Receptors" (id n) = false →
                    Js.includes (id n) "CDK" || Js.includes (id n) "CDC"
                    || Js.includes (id n) "CDKN" = false).
  { unfold categoryTest. simpl. rewrite !orb_false_iff.
    intros [[[[_ _] Hcd] _] _].
    repeat split.
    - destruct (Js.includes (id n) "CDK") eqn:E; [|done].
      by rewrite (includes_shorter (id n) "CD" "K" E) in Hcd.
    - destruct (Js.includes (id n) "CDC") eqn:E; [|done].
      by rewrite (includes_shorter (id n) "CD" "C" E) in Hcd.
    - destruct (Js.includes (id n) "CDKN") eqn:E; [|done].
      by rewrite (includes_shorter (id n) "CD" "KN" E) in Hcd. }
  assert (Hrec : getNodeCategory n = "Cell Cycle" →
                 categoryTest "Receptors" (id n) = false
                 ∧ categoryTest "Cell Cycle" (id n) = true).
  { rewrite getNodeCategory_cascade. tests_cases n; intros; (done || congruence). }
  split.
  - intros H. destruct (Hrec H) as [Hr Hc]. specialize (Hshadow Hr).
    unfold categoryTest in Hc. simpl in Hc.
    rewrite !orb_false_iff in Hshadow. destruct Hshadow as [[H1 H2] H3].
    rewrite H1, H2, H3, !orb_false_r, orb_false_l in Hc. exact Hc.
  - intros Hin H. destruct (Hrec H) as [Hr _]. by rewrite (Hshadow Hr) in Hin.
Qed.

Lemma Cell_Cycle_only_through_CCND_witness :
  getNodeCategory (plainNode "CDK2AP" (Count 1) (Js.of_Z 0) (Js.of_Z 0)) ≠ "Cell Cycle".
Proof.
  apply (Cell_Cycle_only_through_CCND (plainNode "CDK2AP" (Count 1) (Js.of_Z 0) (Js.of_Z 0))).
  reflexivity.
Defined.

(** X11: Immune is only ever returned for an id that starts with "IL",
    "IFN" or "TNF": ids that start with "CD" or "HLA" or contain "TLR" are
    taken by the Receptors test, which comes first. *)
Theorem Immune_only_through_IL_IFN_TNF (n : Node) :
  getNodeCategory n = "Immune" →
  Js.startsWith (id n) "IL" || Js.startsWith (id n) "IFN"
  || Js.startsWith (id n) "TNF" = true.
Proof.
  intros H.
  assert (Hrec : categoryTest "Receptors" (id n) = false
                 ∧ categoryTest "Immune" (id n) = true).
  { rewrite getNodeCategory_cascade in H. tests_cases n; (done || congruence). }
  destruct Hrec as [Hr Hi]. unfold categoryTest in Hr, Hi. simpl in Hr, Hi.
  rewrite !orb_false_iff in Hr. destruct Hr as [[[[_ _] Hcd] Hhla] Htlr].
  assert (Js.startsWith (id n) "CD" = false) as Hscd.
  { destruct (Js.startsWith (id n) "CD") eqn:E; [|done].
    by rewrite (startsWith_includes _ _ E) in Hcd. }
  assert (Js.startsWith (id n) "HLA" = false) as Hshla.
  { destruct (Js.startsWith (id n) "HLA") eqn:E; [|done].
    by rewrite (startsWith_includes _ _ E) in Hhla. }
  by rewrite Hscd, Hshla, Htlr, !orb_false_r in Hi.
Qed.

Lemma Immune_only_through_IL_IFN_TNF_witness :
  Js.startsWith "IL6" "IL" || Js.startsWith "IL6" "IFN" || Js.startsWith "IL6" "TNF"
  = true.
Proof.
  apply (Immune_only_through_IL_IFN_TNF (plainNode "IL6" (Count 1) (Js.of_Z 0) (Js.of_Z 0))).
  reflexivity.
Defined.

(** ** Colours, highlight and legend *)

(** The category returned is always one of the eight declared keys. *)
Lemma getNodeCategory_key (n : Node) :
  getNodeCategory n ∈ map fst nodeCategories.
Proof. rewrite getNodeCategory_cascade. tests_cases n; compute_done. Qed.

Local Ltac category_cases H :=
  simpl in H; set_unfold in H;
  destruct H as [H|[H|[H|[H|[H|[H|[H|[H|[]]]]]]]]]; rewrite H.

(** X12: looking up the colour of a node never fails; two nodes get the
    same colour exactly when they are in the same category; and no category
    colour is the grey #dddddd used for dimmed nodes. *)
Theorem colours_identify_categories (n m : Node) :
  is_Some (getNodeColor n)
  ∧ (getNodeColor n = getNodeColor m ↔ getNodeCategory n = getNodeCategory m)
  ∧ getNodeColor n ≠ Some "#dddddd".
Proof.
  unfold getNodeColor.
  pose proof (getNodeCategory_key n) as Hn.
  pose proof (getNodeCategory_key m) as Hm.
  split; [|split].
  - category_cases Hn; by eexists.
  - category_cases Hn; category_cases Hm; split; (done || discriminate).
  - category_cases Hn; discriminate.
Qed.

(** X13: clicking a legend row while nothing is highlighted highlights that
    category: the nodes of that category keep their colour, every other node
    is filled with #dddddd.  Clicking the same row again brings "all" back,
    and with it the colour of every node. *)
Theorem legend_click_highlights (category : string) (d : Node) :
  category ≠ "all" →
  nodeFill (legendClick "all" category) d
    = (if String.eqb (getNodeCategory d) category then getNodeColor d
       else Some "#dddddd")
  ∧ legendClick (legendClick "all" category) category = "all"
  ∧ nodeFill (legendClick (legendClick "all" category) category) d = getNodeColor d.
Proof.
  intros Hall. unfold legendClick.
  replace (String.eqb "all" category) with false
    by (symmetry; apply String.eqb_neq; congruence).
  rewrite String.eqb_refl. split; [|split; reflexivity].
  unfold nodeFill, getNodeColor.
  replace (String.eqb category "all") with false
    by (symmetry; by apply String.eqb_neq).
  simpl. by rewrite (String.eqb_sym category).
Qed.

Lemma legend_click_highlights_witness :
  nodeFill (legendClick "all" "Cancer") (plainNode "KRAS" (Count 1) (Js.of_Z 0) (Js.of_Z 0))
  = Some "#dddddd".
Proof.
  apply (legend_click_highlights "Cancer" (plainNode "KRAS" (Count 1) (Js.of_Z 0) (Js.of_Z 0))).
  discriminate.
Defined.

(** ** Labels *)

(** X14: labels exist only while [showLabels] is set.  They are then given
    to visible nodes only, in the same order; to every visible node whose id
    is the selected node's id; and, once the degree threshold is 15 or more,
    to every visible node.  Without [showLabels] no node is labelled. *)
Theorem labelled_nodes (nodes : list Node) (selectedNode : option Node) (t : Z) :
  (∀ showLabels,
     sublist (labelledNodes showLabels (filteredNodes nodes t) selectedNode)
             (filteredNodes nodes t))
  ∧ (∀ s d, selectedNode = Some s → d ∈ filteredNodes nodes t → id d = id s →
       d ∈ labelledNodes true (filteredNodes nodes t) selectedNode)
  ∧ ((15 ≤ t)%Z →
     labelledNodes true (filteredNodes nodes t) selectedNode = filteredNodes nodes t)
  ∧ labelledNodes false (filteredNodes nodes t) selectedNode = [].
Proof.
  split; [|split; [|split; [|done]]].
  - intros [|]; unfold labelledNodes; [apply sublist_filter_array|].
    apply sublist_nil_l.
  - intros s d -> Hd Hid. unfold labelledNodes. apply array_filter_elem.
    split; [done|]. rewrite Hid, String.eqb_refl. apply orb_true_r.
  - intros Ht. unfold labelledNodes. apply array_filter_all. intros d Hd.
    apply array_filter_elem in Hd as [_ Hd]. apply orb_true_iff. left.
    unfold degree_gt in *. destruct (degree d); [|done].
    apply Z.ltb_lt in Hd. apply Z.ltb_lt. lia.
Qed.

(** ** Tick listener, continued *)

Section ClampMore.

Lemma SFcompare_number (a b : Js.number) :
  a ≠ Js.NaN → b ≠ Js.NaN → is_Some (SFcompare a b).
Proof. destruct a as [| | |], b as [| | |]; simpl; intros; (done || by eexists). Qed.

(** [Math.min] and [Math.max] of two numbers return one of the two. *)
Lemma Math_min_cases (a b : Js.number) :
  a ≠ Js.NaN → b ≠ Js.NaN → Js.Math_min a b = a ∨ Js.Math_min a b = b.
Proof.
  intros Ha Hb. unfold Js.Math_min.
  destruct (SFcompare_number a b Ha Hb) as [c ->].
  destruct c, (Js.is_neg_zero a); auto.
Qed.

Lemma Math_max_cases (a b : Js.number) :
  a ≠ Js.NaN → b ≠ Js.NaN → Js.Math_max a b = a ∨ Js.Math_max a b = b.
Proof.
  intros Ha Hb. unfold Js.Math_max.
  destruct (SFcompare_number a b Ha Hb) as [c ->].
  destruct c, (Js.is_neg_zero a); auto.
Qed.

Lemma clamp_number (lo hi v : Js.number) :
  lo ≠ Js.NaN → hi ≠ Js.NaN → v ≠ Js.NaN →
  Js.Math_max lo (Js.Math_min hi v) ≠ Js.NaN.
Proof.
  intros Hlo Hhi Hv.
  assert (Hm : Js.Math_min hi v ≠ Js.NaN)
    by (destruct (Math_min_cases hi v Hhi Hv) as [-> | ->]; done).
  destruct (Math_max_cases lo _ Hlo Hm) as [-> | ->]; done.
Qed.

Lemma clampX_NaN_iff (v : Js.number) : clampX v = Js.NaN ↔ v = Js.NaN.
Proof.
  split; [|by intros ->].
  intros H. destruct v as [s|s| |s m e]; [..|done|]; exfalso; revert H;
    by apply clamp_number.
Qed.

Lemma clampY_NaN_iff (v : Js.number) : clampY v = Js.NaN ↔ v = Js.NaN.
Proof.
  split; [|by intros ->].
  intros H. destruct v as [s|s| |s m e]; [..|done|]; exfalso; revert H;
    by apply clamp_number.
Qed.

Lemma clampX_idempotent (v : Js.number) : clampX (clampX v) = clampX v.
Proof.
  destruct (clampX v) as [s|s| |s m e] eqn:E; [..|reflexivity| ]; rewrite <- E;
    (destruct (clampX_range v) as [H1 H2]; [by rewrite E|]);
    by apply clampX_inside.
Qed.

Lemma clampY_idempotent (v : Js.number) : clampY (clampY v) = clampY v.
Proof.
  destruct (clampY v) as [s|s| |s m e] eqn:E; [..|reflexivity| ]; rewrite <- E;
    (destruct (clampY_range v) as [H1 H2]; [by rewrite E|]);
    by apply clampY_inside.
Qed.

End ClampMore.

(** X15: the tick listener writes positions only: ids, labels, degrees,
    velocities and pins are left as they are; and it is idempotent: running it
    twice gives the positions of the first run. *)
Theorem ticked_positions_only (nodes : list Node) :
  map (fun d => (id d, label d, degree d, vx d, vy d, fx d, fy d)) (ticked nodes)
    = map (fun d => (id d, label d, degree d, vx d, vy d, fx d, fy d)) nodes
  ∧ ticked (ticked nodes) = ticked nodes.
Proof.
  unfold ticked. rewrite !map_map. split.
  - by apply map_ext.
  - apply map_ext. intros d. unfold set_position. simpl.
    by rewrite clampX_idempotent, clampY_idempotent.
Qed.

(** X16: the clamp does not repair a coordinate that is not a number: the
    rendered [cx] is NaN exactly when the simulated [x] is NaN, and so for
    [cy]. *)
Theorem ticked_NaN (nodes : list Node) (i : nat) (d : Node)
    (p : Js.number * Js.number) :
  nodes !! i = Some d →
  rendered (ticked nodes) !! i = Some p →
  (fst p = Js.NaN ↔ x d = Js.NaN) ∧ (snd p = Js.NaN ↔ y d = Js.NaN).
Proof.
  intros Hd. rewrite rendered_lookup. unfold ticked.
  change (@map Node Node) with (@fmap list _ Node Node).
  rewrite list_lookup_fmap, Hd. simpl. intros [= <-]. simpl.
  split; [apply clampX_NaN_iff|apply clampY_NaN_iff].
Qed.

Lemma ticked_NaN_witness :
  (Js.NaN = Js.NaN ↔ x (plainNode "A" (Count 1) Js.NaN (Js.of_Z 700)) = Js.NaN)
  ∧ (Js.of_Z 595 = Js.NaN ↔ y (plainNode "A" (Count 1) Js.NaN (Js.of_Z 700)) = Js.NaN).
Proof.
  apply (ticked_NaN [plainNode "A" (Count 1) Js.NaN (Js.of_Z 700)] 0
           (plainNode "A" (Count 1) Js.NaN (Js.of_Z 700)) (Js.NaN, Js.of_Z 595));
    reflexivity.
Defined.

(** ** Drag handlers, continued *)

Section DragMore.

Lemma map_alter_invariant {A B} (f : A → B) (g : A → A) (i : nat) (l : list A) :
  (∀ a, f (g a) = f a) → map f (alter g i l) = map f l.
Proof.
  intros Hfg. revert i. induction l as [|a l IH]; intros [|i]; simpl; [done..| |].
  - by rewrite Hfg.
  - f_equal. apply IH.
Qed.



End DragMore.

(** X17: none of the three drag handlers touches another node than the
    dragged one, changes the number of nodes, moves a node or changes its
    velocity, or changes [alpha]; and while another drag is active they leave
    [alphaTarget] and the running state alone. *)
Theorem drag_handlers_frame (event : DragEvent) (sim : Simulation) :
  Forall (fun handler : DragEvent → Simulation → Simulation =>
      (∀ j, j ≠ subject event →
         sim_nodes (handler event sim) !! j = sim_nodes sim !! j)
      ∧ map (fun d => (id d, label d, degree d, x d, y d, vx d, vy d))
            (sim_nodes (handler event sim))
        = map (fun d => (id d, label d, degree d, x d, y d, vx d, vy d))
            (sim_nodes sim)
      ∧ alpha (handler event sim) = alpha sim
      ∧ (active event ≠ 0 →
         alphaTarget (handler event sim) = alphaTarget sim
         ∧ running (handler event sim) = running sim))
    [dragstarted; dragged; dragended].
Proof.
  repeat apply Forall_cons_2; [..|apply Forall_nil_2];
    unfold dragstarted, dragged, dragended, update_subject;
    (split; [|split; [|split]]).
  all: try (intros j Hj; destruct (Nat.eqb (active event) 0); simpl;
            by rewrite list_lookup_alter_ne).
  all: try (destruct (Nat.eqb (active event) 0); simpl;
            by apply map_alter_invariant).
  all: try (by destruct (Nat.eqb (active event) 0)).
  all: intros Ha; apply Nat.eqb_neq in Ha; by rewrite ?Ha.
Qed.





(** ** Link attributes *)

Section LinkMore.

Lemma SFcompare_Some_number (a b : Js.number) (c : comparison) :
  SFcompare a b = Some c → a ≠ Js.NaN ∧ b ≠ Js.NaN.
Proof. destruct a as [| | |], b as [| | |]; simpl; intros; (done || by split). Qed.

(** [Math.max] is an upper bound of both arguments, when it is a number. *)
Lemma Math_max_upper (a b : Js.number) :
  Js.Math_max a b ≠ Js.NaN →
  Js.le a (Js.Math_max a b) = true ∧ Js.le b (Js.Math_max a b) = true.
Proof.
  unfold Js.Math_max, Js.le. intros Hn.
  pose proof (SFcompare_antisym a b) as Hanti.
  destruct (SFcompare a b) as [c|] eqn:E; [|done].
  destruct (SFcompare_Some_number a b c E) as [Ha Hb].
  pose proof (SFleb_refl a Ha) as Ra. pose proof (SFleb_refl b Hb) as Rb.
  simpl in Hanti.
  destruct c, (Js.is_neg_zero a); split; try done;
    unfold SFleb; by rewrite ?E, ?Hanti.
Qed.

End LinkMore.

(** X20: a link is never drawn thinner than 1: its stroke width is at least
    1 whenever it is a number, and it is a number whenever the product and
    difference computed from the weight are. *)
Theorem strokeWidth_at_least_one (d : Edge) :
  (strokeWidth d ≠ Js.NaN → Js.le (Js.of_Z 1) (strokeWidth d) = true)
  ∧ (Js.sub (Js.mul (weight d) (Js.of_Z 5000)) (Js.of_Z 3) ≠ Js.NaN →
     strokeWidth d ≠ Js.NaN).
Proof.
  split.
  - intros H. by apply Math_max_upper.
  - intros H. unfold strokeWidth.
    destruct (Math_max_cases (Js.of_Z 1) _ ltac:(done) H) as [-> | ->]; done.
Qed.

Lemma strokeWidth_at_least_one_witness :
  Js.le (Js.of_Z 1) (strokeWidth (mkEdge "A" "B" 0 (Js.of_Z 1))) = true.
Proof.
  apply (strokeWidth_at_least_one (mkEdge "A" "B" 0 (Js.of_Z 1))).
  discriminate.
Defined.

(** ** Graph parser *)

Section Parser.

Lemma append_cons (c : Ascii.ascii) (s t : string) :
  String c s ++ t = String c (s ++ t).
Proof. reflexivity. Qed.



Lemma matchLiteral_length (lit s r : string) :
  matchLiteral lit s = Some r → String.length s = String.length lit + String.length r.
Proof.
  revert s. induction lit as [|c lit IH]; intros s; simpl.
  - by intros [= ->].
  - destruct s as [|d s]; [done|]. destruct (Ascii.eqb c d); [|done].
    intros H. simpl. f_equal. by apply IH.
Qed.

Lemma takeClass_spec (p : Ascii.ascii → bool) (s a r : string) :
  takeClass p s = (a, r) →
  allChars p a = true ∧ String.length s = String.length a + String.length r.
Proof.
  revert a r. induction s as [|c s IH]; intros a r; simpl.
  - by intros [= <- <-].
  - destruct (p c) eqn:Hc.
    + destruct (takeClass p s) as [a' r'] eqn:E. intros [= <- <-].
      destruct (IH a' r' eq_refl) as [Ha Hl]. simpl. rewrite Hc, Ha, Hl. done.
    + by intros [= <- <-].
Qed.


Lemma matchGroup_spec (p : Ascii.ascii → bool) (s a r : string) :
  matchGroup p s = Some (a, r) →
  a ≠ EmptyString ∧ allChars p a = true
  ∧ String.length s = String.length a + String.length r.
Proof.
  unfold matchGroup. destruct (takeClass p s) as [a' r'] eqn:E.
  destruct a' as [|c a']; [done|]. intros [= <- <-].
  destruct (takeClass_spec p s _ _ E). done.
Qed.


Lemma attributeValue_spec (s : string) :
  attributeValue s = true ↔ s ≠ EmptyString ∧ allChars notQuote s = true.
Proof.
  unfold attributeValue. rewrite andb_true_iff, negb_true_iff, String.eqb_neq. done.
Qed.

(** A successful match of either pattern consumes at least one character,
    and its first two captures are non-empty and free of double quotes. *)
Lemma nodeRegex_spec (s : string) (m : string * string) (r : string) :
  nodeRegex s = Some (m, r) →
  String.length r < String.length s
  ∧ attributeValue (fst m) = true ∧ attributeValue (snd m) = true.
Proof.
  unfold nodeRegex.
  destruct (matchLiteral _ s) as [r0|] eqn:E0; [|done].
  destruct (matchGroup notQuote r0) as [[g1 r1]|] eqn:E1; [|done].
  destruct (matchLiteral _ r1) as [r2|] eqn:E2; [|done].
  destruct (matchGroup notQuote r2) as [[g2 r3]|] eqn:E3; [|done].
  destruct (matchLiteral _ r3) as [r4|] eqn:E4; [|done].
  intros [= <- <-]. simpl.
  apply matchLiteral_length in E0, E2, E4.
  apply matchGroup_spec in E1 as (? & ? & ?), E3 as (? & ? & ?).
  rewrite !attributeValue_spec. repeat split; try done.
  rewrite E0. simpl. lia.
Qed.

Lemma edgeRegex_spec (s : string) (m : string * string * string * string)
    (r : string) :
  edgeRegex s = Some (m, r) →
  String.length r < String.length s
  ∧ attributeValue (fst (fst (fst m))) = true
  ∧ attributeValue (snd (fst (fst m))) = true.
Proof.
  unfold edgeRegex.
  destruct (matchLiteral _ s) as [r0|] eqn:E0; [|done].
  destruct (matchGroup notQuote r0) as [[g1 r1]|] eqn:E1; [|done].
  destruct (matchLiteral _ r1) as [r2|] eqn:E2; [|done].
  destruct (matchGroup notQuote r2) as [[g2 r3]|] eqn:E3; [|done].
  destruct (matchLiteral _ r3) as [r4|] eqn:E4; [|done].
  destruct (matchGroup Js.is_digit r4) as [[g3 r5]|] eqn:E5; [|done].
  destruct (matchLiteral _ r5) as [r6|] eqn:E6; [|done].
  destruct (matchGroup notQuote r6) as [[g4 r7]|] eqn:E7; [|done].
  destruct (matchLiteral _ r7) as [r8|] eqn:E8; [|done].
  intros [= <- <-]. simpl.
  apply matchLiteral_length in E0, E2, E4, E6, E8.
  apply matchGroup_spec in E1 as (? & ? & ?), E3 as (? & ? & ?),
    E5 as (? & ? & ?), E7 as (? & ? & ?).
  rewrite !attributeValue_spec. repeat split; try done.
  rewrite E0. simpl. lia.
Qed.

Lemma matchLiteral_mismatch (c d : Ascii.ascii) (lit s : string) :
  Ascii.eqb d c = false → matchLiteral (String c lit) (String d s) = None.
Proof. intros H. simpl. by rewrite Ascii.eqb_sym, H. Qed.

(** Neither pattern matches at a character other than the opening angle
    bracket, nor at the end of the text. *)
Lemma nodeRegex_no_tag (s : string) :
  match s with
  | EmptyString => True
  | String c _ => Ascii.eqb c (Ascii.ascii_of_nat 60) = false
  end →
  nodeRegex s = None.
Proof.
  destruct s as [|c s]; [done|]. intros Hc. unfold nodeRegex.
  assert (∃ lit, "<node id=" ++ dquote = String (Ascii.ascii_of_nat 60) lit)
    as [lit ->] by (by eexists).
  by rewrite matchLiteral_mismatch.
Qed.

Lemma edgeRegex_no_tag (s : string) :
  match s with
  | EmptyString => True
  | String c _ => Ascii.eqb c (Ascii.ascii_of_nat 60) = false
  end →
  edgeRegex s = None.
Proof.
  destruct s as [|c s]; [done|]. intros Hc. unfold edgeRegex.
  assert (∃ lit, "<edge source=" ++ dquote = String (Ascii.ascii_of_nat 60) lit)
    as [lit ->] by (by eexists).
  by rewrite matchLiteral_mismatch.
Qed.

Context {A : Type} (re : string → option (A * string)).
Hypothesis re_consumes :
  ∀ s m r, re s = Some (m, r) → String.length r < String.length s.


Lemma execLoop_S (fuel : nat) (s : string) :
  execLoop re (S fuel) s =
    match re s with
    | Some (m, rest) => m :: execLoop re fuel rest
    | None =>
        match s with
        | EmptyString => []
        | String _ s' => execLoop re fuel s'
        end
    end.
Proof. reflexivity. Qed.


Lemma execAll_skip (c : Ascii.ascii) (s : string) :
  re (String c s) = None → execAll re (String c s) = execAll re s.
Proof.
  intros E. unfold execAll.
  by rewrite (execLoop_S (String.length (String c s)) (String c s)), E.
Qed.

Lemma execAll_end : re EmptyString = None → execAll re EmptyString = [].
Proof. intros E. unfold execAll. by rewrite execLoop_S, E. Qed.

Lemma execLoop_Forall (P : A → Prop) (fuel : nat) (s : string) :
  (∀ s m r, re s = Some (m, r) → P m) → Forall P (execLoop re fuel s).
Proof.
  intros HP. revert s. induction fuel as [|fuel IH]; intros s; simpl; [done|].
  destruct (re s) as [[m r]|] eqn:E.
  - apply Forall_cons_2; [by eapply HP|apply IH].
  - destruct s; [done|apply IH].
Qed.

(** Text that offers no position to match at yields nothing and can be
    dropped from the front of a longer text. *)
Lemma execAll_junk (junk s : string) :
  (∀ c t, re (String c t) = None ∨ Ascii.eqb c (Ascii.ascii_of_nat 60) = true) →
  noTagStart junk = true →
  execAll re (junk ++ s) = execAll re s.
Proof.
  intros Hre. unfold noTagStart. induction junk as [|c junk IH]; [done|].
  simpl. rewrite andb_true_iff, negb_true_iff. intros [Hc Hj].
  rewrite append_cons, execAll_skip; [by apply IH|].
  destruct (Hre c (junk ++ s)) as [?|E]; [done|congruence].
Qed.

End Parser.

Section ParserFiles.


Lemma append_nil_r (s : string) : s ++ EmptyString = s.
Proof. induction s as [|c s IH]; [done|]. by rewrite append_cons, IH. Qed.





Lemma nodeRegex_at_tag (c : Ascii.ascii) (t : string) :
  nodeRegex (String c t) = None ∨ Ascii.eqb c (Ascii.ascii_of_nat 60) = true.
Proof.
  destruct (Ascii.eqb c (Ascii.ascii_of_nat 60)) eqn:E; [by right|left].
  by apply (nodeRegex_no_tag (String c t)).
Qed.

Lemma edgeRegex_at_tag (c : Ascii.ascii) (t : string) :
  edgeRegex (String c t) = None ∨ Ascii.eqb c (Ascii.ascii_of_nat 60) = true.
Proof.
  destruct (Ascii.eqb c (Ascii.ascii_of_nat 60)) eqn:E; [by right|left].
  by apply (edgeRegex_no_tag (String c t)).
Qed.







(** Neither pattern matches at the start of a declaration of the other
    kind. *)
Lemma nodeRegex_edgeDeclaration (s t i w rest : string) :
  nodeRegex (edgeDeclaration s t i w ++ rest) = None.
Proof. reflexivity. Qed.

Lemma edgeRegex_nodeDeclaration (i l rest : string) :
  edgeRegex (nodeDeclaration i l ++ rest) = None.
Proof. reflexivity. Qed.

End ParserFiles.

Section ParserRoundTrip.




Lemma extract_trailer (parseInt : string → Z) (parseFloat : string → Js.number)
    (trailer : string) :
  noTagStart trailer = true →
  extractNodes trailer = [] ∧ extractEdges parseInt parseFloat trailer = [].
Proof.
  intros H. unfold extractNodes, extractEdges.
  rewrite <- (append_nil_r trailer).
  rewrite (execAll_junk nodeRegex) by (done || apply nodeRegex_at_tag).
  rewrite (execAll_junk edgeRegex) by (done || apply edgeRegex_at_tag).
  by rewrite !execAll_end.
Qed.

End ParserRoundTrip.

(** X21: a text without any opening angle bracket, the empty text included,
    loads as the empty graph: fragments that are no declarations are skipped
    without error. *)
Theorem text_without_declarations (parseInt : string → Z)
    (parseFloat : string → Js.number) (response : string) :
  noTagStart response = true →
  loadGraph parseInt parseFloat response = ([], []).
Proof.
  intros H. unfold loadGraph.
  by destruct (extract_trailer parseInt parseFloat response H) as [-> ->].
Qed.

Lemma text_without_declarations_witness :
  loadGraph (fun _ => 0%Z) (fun _ => Js.NaN) "no graph here" = ([], []).
Proof. apply text_without_declarations. reflexivity. Defined.

(** X22: whatever the text, every extracted node has a non-empty id and a
    non-empty label without double quote, and every extracted edge a
    non-empty source and a non-empty target without double quote. *)
Theorem extracted_values_are_attribute_values (parseInt : string → Z)
    (parseFloat : string → Js.number) (response : string) :
  Forall (fun n => attributeValue (id n) = true ∧ attributeValue (label n) = true)
    (extractNodes response)
  ∧ Forall (fun e => attributeValue (source e) = true
                     ∧ attributeValue (target e) = true)
      (extractEdges parseInt parseFloat response).
Proof.
  unfold extractNodes, extractEdges, execAll. split; apply List.Forall_map.
  - apply execLoop_Forall. intros s m r H. by apply nodeRegex_spec in H as (_ & ? & ?).
  - apply execLoop_Forall. intros s [[[g1 g2] g3] g4] r H.
    by apply edgeRegex_spec in H as (_ & ? & ?).
Qed.


